(** * scrape.py: the polite scraper, embedded and verified

    A shallow embedding of [rag_step1_scraping/src/scrape.py].

    - Python [str] values are Rocq [string]s, one [ascii] per code point
      (the code points 0..255); [strip], [startswith], [in], [split],
      [re.sub] and [encode("utf-8")] are written out for them.
    - [hashlib.sha1] is the FIPS 180-4 function, written out on 32-bit
      words held in [Z].
    - The variables of [main] that [process_url] updates ([total_bytes],
      [seen_hashes], [seen_urls]), the log, the files opened for writing
      and the outside world are one record, threaded through a monad of
      state and exceptions.  An exception is an [Exception] of Python with
      its message: what [except Exception] catches.
    - Everything the script only calls (HTTP, robots.txt, HTML parsing,
      text extraction, URL parsing, the clock, the random generator, the
      disk) is an [Externals] record of operations on an abstract world;
      any of them that can raise returns a [result].
    - [main] is taken from the parsed arguments on: the set-up of the
      logger, of the output directory and of the session, and the final
      [print], are left out. *)

From Stdlib Require Import ZArith Ascii String List Lia Bool.
From stdpp Require Import gmap strings list.

Local Open Scope Z_scope.

(** ** Python string operations used by the script *)

Module Py.

(** [str.isspace] on one character, for the code points below 256. *)
Definition isspace (c : ascii) : bool :=
  let n := N_of_ascii c in
  ((9 <=? n) && (n <=? 13) || (28 <=? n) && (n <=? 32)
   || (n =? 133) || (n =? 160))%N.

Fixpoint lstrip_by (p : ascii -> bool) (s : string) : string :=
  match s with
  | String c s' => if p c then lstrip_by p s' else s
  | EmptyString => EmptyString
  end.

(** Drops the trailing characters that satisfy [p]. *)
Fixpoint rstrip_by (p : ascii -> bool) (s : string) : string :=
  match s with
  | String c s' =>
      match rstrip_by p s' with
      | EmptyString => if p c then EmptyString else String c EmptyString
      | r => String c r
      end
  | EmptyString => EmptyString
  end.

Definition strip_by (p : ascii -> bool) (s : string) : string :=
  rstrip_by p (lstrip_by p s).

(** [s.strip()] *)
Definition strip (s : string) : string := strip_by isspace s.

(** [s.strip(chars)] *)
Definition strip_chars (chars s : string) : string :=
  strip_by (fun c => bool_decide (c ∈ list_ascii_of_string chars)) s.

(** [s.startswith(p)] *)
Definition startswith (s p : string) : bool := String.prefix p s.

(** [sub in s] *)
Fixpoint contains (sub s : string) : bool :=
  String.prefix sub s ||
  match s with
  | String _ s' => contains sub s'
  | EmptyString => false
  end.

(** Truthiness of a string: [if s] holds for the non-empty ones. *)
Definition truthy (s : string) : bool :=
  match s with EmptyString => false | _ => true end.

(** [s.replace(a, b)] for one-character [a] and [b]. *)
Fixpoint replace_char (a b : ascii) (s : string) : string :=
  match s with
  | String c s' =>
      String (if Ascii.eqb c a then b else c) (replace_char a b s')
  | EmptyString => EmptyString
  end.

(** [s.split(sep)[-1]] for a non-empty [sep]: the separators are found
    left to right without overlap, [skip] counts the characters of a
    matched separator still to pass, [cur] is the piece being read. *)
Fixpoint split_last_from (sep : string) (skip : nat) (cur s : string)
  : string :=
  match s with
  | EmptyString => cur
  | String c s' =>
      match skip with
      | S k => split_last_from sep k cur s'
      | O =>
          if String.prefix sep s
          then split_last_from sep (Nat.pred (String.length sep))
                 EmptyString s'
          else split_last_from sep O (cur +:+ String c EmptyString) s'
      end
  end.

Definition split_last (sep s : string) : string :=
  split_last_from sep O EmptyString s.

(** [sep.join(l)] *)
Fixpoint join (sep : string) (l : list string) : string :=
  match l with
  | [] => EmptyString
  | [x] => x
  | x :: rest => x +:+ sep +:+ join sep rest
  end.

(** [s[:n]] for [n >= 0]. *)
Fixpoint take (n : nat) (s : string) : string :=
  match n, s with
  | S k, String c s' => String c (take k s')
  | _, _ => EmptyString
  end.

(** [l[:n]] for any integer [n]: a negative [n] counts from the end. *)
Definition slice_to {A} (n : Z) (l : list A) : list A :=
  if n <? 0
  then firstn (Z.to_nat (Z.of_nat (List.length l) + n)) l
  else firstn (Z.to_nat n) l.

(** [s.encode("utf-8")] as a list of byte values. *)
Definition utf8_char (c : ascii) : list Z :=
  let n := Z.of_N (N_of_ascii c) in
  if n <? 128 then [n]
  else [Z.lor 192 (Z.shiftr n 6); Z.lor 128 (Z.land n 63)].

Definition encode_utf8 (s : string) : list Z :=
  flat_map utf8_char (list_ascii_of_string s).

(** The class [[a-zA-Z0-9\-_.]] of the pattern in [slugify]. *)
Definition slug_char (c : ascii) : bool :=
  let n := N_of_ascii c in
  ((97 <=? n) && (n <=? 122) || (65 <=? n) && (n <=? 90)
   || (48 <=? n) && (n <=? 57)
   || (n =? 45) || (n =? 95) || (n =? 46))%N.

(** [re.sub(r"[^a-zA-Z0-9\-_.]+", "-", s)]: every maximal run of
    characters outside the class becomes one dash.  [in_run] tells
    whether the previous character was outside the class. *)
Fixpoint sub_runs (in_run : bool) (s : string) : string :=
  match s with
  | EmptyString => EmptyString
  | String c s' =>
      if slug_char c then String c (sub_runs false s')
      else if in_run then sub_runs true s'
      else String "-" (sub_runs true s')
  end.

Definition re_sub_slug (s : string) : string := sub_runs false s.

End Py.

(** ** SHA-1 (FIPS 180-4), as [hashlib.sha1(data).hexdigest()] *)

Module SHA1.

Definition w32 (x : Z) : Z := Z.land x 0xFFFFFFFF.

Definition add32 (x y : Z) : Z := w32 (x + y).

Definition rotl (n x : Z) : Z :=
  w32 (Z.lor (Z.shiftl x n) (Z.shiftr x (32 - n))).

(** The round function and constant of round [t]. *)
Definition f (t b c d : Z) : Z :=
  if t <? 20 then Z.lor (Z.land b c) (Z.land (Z.lxor b 0xFFFFFFFF) d)
  else if t <? 40 then Z.lxor (Z.lxor b c) d
  else if t <? 60 then
    Z.lor (Z.lor (Z.land b c) (Z.land b d)) (Z.land c d)
  else Z.lxor (Z.lxor b c) d.

Definition k (t : Z) : Z :=
  if t <? 20 then 0x5A827999
  else if t <? 40 then 0x6ED9EBA1
  else if t <? 60 then 0x8F1BBCDC
  else 0xCA62C1D6.

Record regs := Regs { ra : Z; rb : Z; rc : Z; rd : Z; re : Z }.

Definition init : regs :=
  Regs 0x67452301 0xEFCDAB89 0x98BADCFE 0x10325476 0xC3D2E1F0.

Definition nthw (i : nat) (win : list Z) : Z := nth i win 0.

(** [n] rounds from round [t]; [win] holds the schedule words
    [W t .. W (t+15)]. *)
Fixpoint rounds (n : nat) (t : Z) (win : list Z) (r : regs) : regs :=
  match n with
  | O => r
  | S n' =>
      let wt := nthw 0 win in
      let tmp :=
        add32 (add32 (add32 (add32 (rotl 5 (ra r)) (f t (rb r) (rc r) (rd r)))
                        (re r)) wt) (k t) in
      let nw :=
        rotl 1 (Z.lxor (Z.lxor (Z.lxor (nthw 13 win) (nthw 8 win))
                          (nthw 2 win)) (nthw 0 win)) in
      rounds n' (t + 1) (tl win ++ [nw])
        (Regs tmp (ra r) (rotl 30 (rb r)) (rc r) (rd r))
  end.

(** Big-endian words of a block of bytes. *)
Fixpoint words (bs : list Z) : list Z :=
  match bs with
  | b0 :: b1 :: b2 :: b3 :: rest =>
      (Z.shiftl b0 24 + Z.shiftl b1 16 + Z.shiftl b2 8 + b3) :: words rest
  | _ => []
  end.

Definition compress (h : regs) (block : list Z) : regs :=
  let r := rounds 80 0 (words block) h in
  Regs (add32 (ra h) (ra r)) (add32 (rb h) (rb r)) (add32 (rc h) (rc r))
       (add32 (rd h) (rd r)) (add32 (re h) (re r)).

(** The eight bytes of the message length in bits, big-endian. *)
Definition length_bytes (bits : Z) : list Z :=
  map (fun i => Z.land (Z.shiftr bits (8 * i)) 255) [7; 6; 5; 4; 3; 2; 1; 0].

Definition pad (msg : list Z) : list Z :=
  let len := Z.of_nat (List.length msg) in
  let zeros := Z.to_nat ((55 - len) mod 64) in
  msg ++ [128] ++ repeat 0 zeros ++ length_bytes (8 * len).

(** Folds [compress] over the 64-byte blocks; [n] bounds their number. *)
Fixpoint blocks (n : nat) (h : regs) (bs : list Z) : regs :=
  match n, bs with
  | S n', _ :: _ => blocks n' (compress h (firstn 64 bs)) (skipn 64 bs)
  | _, _ => h
  end.

Definition digest (msg : list Z) : regs :=
  let p := pad msg in blocks (List.length p) init p.

Definition hex_digit (n : Z) : ascii :=
  if n <? 10 then ascii_of_N (Z.to_N (48 + n))
  else ascii_of_N (Z.to_N (87 + n)).

(** The eight lower-case hexadecimal digits of a 32-bit word. *)
Definition hex_word (x : Z) (rest : string) : string :=
  let d i := hex_digit (Z.land (Z.shiftr x (4 * i)) 15) in
  String (d 7) (String (d 6) (String (d 5) (String (d 4)
    (String (d 3) (String (d 2) (String (d 1) (String (d 0) rest))))))).

Definition hexdigest (msg : list Z) : string :=
  let r := digest msg in
  hex_word (ra r) (hex_word (rb r) (hex_word (rc r)
    (hex_word (rd r) (hex_word (re r) EmptyString)))).

End SHA1.

(** [hashlib.sha1(s.encode("utf-8")).hexdigest()] *)
Definition sha1_hex (s : string) : string :=
  SHA1.hexdigest (Py.encode_utf8 s).

(** ** Exceptions and the state monad of the script *)

(** The outcome of a Python call: a value, or a raised [Exception]
    (with its message). *)
Inductive result (A : Type) : Type :=
| Ok (a : A)
| Raise (e : string).
Arguments Ok {A} a.
Arguments Raise {A} e.

Global Instance result_ret : MRet result := fun A a => Ok a.
Global Instance result_bind : MBind result := fun A B k r =>
  match r with
  | Ok a => k a
  | Raise e => Raise e
  end.

(** A computation on a state [S]: what it returns or raises, and the state
    it leaves.  An exception keeps the state reached when it was raised. *)
Definition M (S A : Type) : Type := S -> result A * S.

Global Instance M_ret {S} : MRet (M S) := fun A a s => (Ok a, s).
Global Instance M_bind {S} : MBind (M S) := fun A B k m s =>
  match m s with
  | (Ok a, s') => k a s'
  | (Raise e, s') => (Raise e, s')
  end.

(** [try: body except Exception as e: handler e] *)
Definition try_except {S A} (body : M S A) (handler : string -> M S A)
  : M S A :=
  fun s =>
    match body s with
    | (Ok a, s') => (Ok a, s')
    | (Raise e, s') => handler e s'
    end.

(** A call that reads no state. *)
Definition pure {S A} (r : result A) : M S A := fun s => (r, s).

Definition gets {S A} (f : S -> A) : M S A := fun s => (Ok (f s), s).

Definition modify {S} (f : S -> S) : M S unit := fun s => (Ok tt, f s).

(** ** Data of the script *)

(** The six fields of [urllib.parse.ParseResult]. *)
Record ParseResult := mkParseResult {
  scheme : string;
  netloc : string;
  path : string;
  params : string;
  query : string;
  fragment : string
}.

(** What the script reads of a [requests.Response]. *)
Record Response := mkResponse {
  status_code : Z;
  ok : bool;
  content_type : option string;     (* headers.get("Content-Type") *)
  text : string;
  json_title : result (option string) (* json().get("title") *)
}.

(** The command line after [argparse]. *)
Record Args := mkArgs {
  seeds : string;
  out : string;
  max_total_bytes : Z;
  delay_seconds : Z * Z;            (* the float, as a ratio *)
  timeout : Z;
  crawl : bool;
  max_follow : Z;
  same_domain : bool;
  user_agent : string
}.

(** The records sent to the log, by their signal keyword. *)
Inductive log_record : Type :=
| ROBOTS_BLOCKED (url : string)
| SKIP_NONHTML (url ctype : string)
| EXTRACTION_FAILED_SHORT (url : string)
| DUPLICATE (url : string)
| SAVED (url : string) (added total : Z)
| ERROR (url e : string)
| CRAWL_ERROR (seed : string).

(** One [open(path, "w")] of [save_txt]: the page it is for, the file, the
    text handed to [f.write], and whether the write went through. *)
Record file_write := mkWrite {
  fw_url : string;
  fw_dir : string;
  fw_name : string;
  fw_content : string;
  fw_ok : bool
}.

(** The variables of [main] that [process_url] closes over, the log, the
    writes to the output directory (latest first, like the log) and the
    world outside the process. *)
Record state (World : Type) := mkState {
  total_bytes : Z;
  seen_hashes : gset string;
  seen_urls : gset string;
  log : list log_record;
  written : list file_write;
  world : World
}.
Arguments mkState {World}.
Arguments total_bytes {World}.
Arguments seen_hashes {World}.
Arguments seen_urls {World}.
Arguments log {World}.
Arguments written {World}.
Arguments world {World}.

(** Updates of one field. *)
Definition set_world {World} (w : World) (s : state World) : state World :=
  mkState (total_bytes s) (seen_hashes s) (seen_urls s) (log s) (written s) w.

Definition push_log {World} (r : log_record) (s : state World)
  : state World :=
  mkState (total_bytes s) (seen_hashes s) (seen_urls s) (r :: log s)
    (written s) (world s).

Definition push_write {World} (e : file_write) (s : state World)
  : state World :=
  mkState (total_bytes s) (seen_hashes s) (seen_urls s) (log s)
    (e :: written s) (world s).

Definition mark_url {World} (url : string) (s : state World) : state World :=
  mkState (total_bytes s) (seen_hashes s) ({[url]} ∪ seen_urls s) (log s)
    (written s) (world s).

Definition mark_hash {World} (h : string) (s : state World) : state World :=
  mkState (total_bytes s) ({[h]} ∪ seen_hashes s) (seen_urls s) (log s)
    (written s) (world s).

Definition add_bytes {World} (n : Z) (s : state World) : state World :=
  mkState (total_bytes s + n) (seen_hashes s) (seen_urls s) (log s)
    (written s) (world s).

(** The libraries and the operating system, as the script calls them.
    Calls that reach outside the process act on the world. *)
Record Externals (World : Type) := mkExternals {
  (* urllib.parse *)
  urlparse : string -> result ParseResult;
  urljoin : string -> string -> result string;
  unquote : string -> string;
  (* urllib.robotparser: the parser after set_url and read, and can_fetch *)
  RobotRules : Type;
  rp_read : string -> World -> result RobotRules * World;
  rp_can_fetch : RobotRules -> string -> string -> result bool;
  (* requests: session.get(url, timeout=...) *)
  session_get : string -> Z -> World -> result Response * World;
  (* trafilatura: extract, and bare_extraction seen through get("title") *)
  trafilatura_extract : string -> result (option string);
  trafilatura_bare_extraction : string -> result (option (option string));
  (* bs4: the href of every <a href=...>, in document order *)
  find_all_a_href : string -> list string;
  (* time.strftime('%Y-%m-%d %H:%M:%S') *)
  strftime : World -> string;
  (* time.sleep(delay + random.random()) *)
  sleep_jitter : Z * Z -> World -> result unit * World;
  (* random.shuffle, returning the shuffled list *)
  shuffle : list string -> World -> list string * World;
  (* the lines of open(path, "r") *)
  read_lines : string -> World -> result (list string) * World;
  (* open(dir/name, "w") and f.write(content) *)
  write_file : string -> string -> string -> World -> result unit * World
}.
Arguments urlparse {World}.
Arguments urljoin {World}.
Arguments unquote {World}.
Arguments RobotRules {World}.
Arguments rp_read {World}.
Arguments rp_can_fetch {World}.
Arguments session_get {World}.
Arguments trafilatura_extract {World}.
Arguments trafilatura_bare_extraction {World}.
Arguments find_all_a_href {World}.
Arguments strftime {World}.
Arguments sleep_jitter {World}.
Arguments shuffle {World}.
Arguments read_lines {World}.
Arguments write_file {World}.

Definition nl : string := String "010" EmptyString.

(** [x or ''] for an optional string. *)
Definition or_empty (x : option string) : string :=
  match x with
  | Some s => s
  | None => EmptyString
  end.

(** [not text] for [text : str | None]. *)
Definition falsy (x : option string) : bool := negb (Py.truthy (or_empty x)).

Section Scraper.

Context {World : Type}.
Variable ext : Externals World.

Abbreviation St := (state World).

(** An external call on the world, inside the state of the script. *)
Definition call {A} (op : World -> result A * World) : M St A :=
  fun s => let '(r, w) := op (world s) in (r, set_world w s).

(** [logging.info] and [logging.exception]. *)
Definition logging (r : log_record) : M St unit :=
  modify (push_log r).

(** *** slugify *)
Definition slug_base (parsed : ParseResult) : string :=
  let base := Py.strip_chars "/" (netloc parsed +:+ path parsed) in
  let base := Py.re_sub_slug base in
  if Py.truthy base then base else "page".

Definition slugify (url : string) : result string :=
  parsed ← urlparse ext url;
  let base := slug_base parsed in
  let h := Py.take 8 (sha1_hex url) in
  mret (base +:+ "-" +:+ h).

(** *** read_seeds *)
Definition read_seeds (path : string) : M St (list string) :=
  lines ← call (read_lines ext path);
  mret (map Py.strip
          (filter (fun ln => Py.truthy (Py.strip ln)
                             && negb (Py.startswith (Py.strip ln) "#"))
             lines)).

(** *** ok_by_robots *)
Definition ok_by_robots (url ua : string) : M St bool :=
  parsed ← pure (urlparse ext url);
  let robots_url := scheme parsed +:+ "://" +:+ netloc parsed
                    +:+ "/robots.txt" in
  try_except
    (rp ← call (rp_read ext robots_url);
     pure (rp_can_fetch ext rp ua url))
    (fun _ => mret true).

(** *** fetch_wikipedia_plain *)
Definition fetch_wikipedia_plain (url : string) (timeout : Z)
  : M St (option string * option string) :=
  parsed ← pure (urlparse ext url);
  if negb (Py.contains "wikipedia.org" (netloc parsed))
     || negb (Py.contains "/wiki/" (path parsed))
  then mret (None, None)
  else
    let title := unquote ext (Py.split_last "/wiki/" (path parsed)) in
    let api_url := "https://" +:+ netloc parsed
                   +:+ "/api/rest_v1/page/plain/" +:+ title in
    r ← call (session_get ext api_url timeout);
    if negb (status_code r =? 200) || negb (Py.truthy (Py.strip (text r)))
    then mret (None, None)
    else
      doc_title ←
        try_except
          (let summary_url := "https://" +:+ netloc parsed
                              +:+ "/api/rest_v1/page/summary/" +:+ title in
           s ← call (session_get ext summary_url timeout);
           if ok s then pure (json_title s)
           else mret (Some (Py.replace_char "_" " " title)))
          (fun _ => mret (Some (Py.replace_char "_" " " title)));
      mret (doc_title, Some (text r)).

(** *** extract_with_trafilatura *)
Definition extract_with_trafilatura (url html : string)
  : result (option string * option string) :=
  downloaded ← trafilatura_extract ext html;
  if falsy downloaded then mret (None, None)
  else
    let title :=
      match trafilatura_bare_extraction ext html with
      | Ok (Some t) => t
      | Ok None => None
      | Raise _ => None
      end in
    mret (title, downloaded).

(** *** collect_links *)
Fixpoint collect_loop (base_url base_domain : string) (same_domain : bool)
    (hrefs : list string) (links : gset string) : result (gset string) :=
  match hrefs with
  | [] => mret links
  | a :: rest =>
      let href := Py.strip a in
      if Py.startswith href "#" || Py.startswith href "mailto:"
         || Py.startswith href "javascript:"
      then collect_loop base_url base_domain same_domain rest links
      else
        abs_url ← urljoin ext base_url href;
        skip ← (if same_domain
                then p ← urlparse ext abs_url;
                     mret (negb (String.eqb (netloc p) base_domain))
                else mret false);
        if skip : bool
        then collect_loop base_url base_domain same_domain rest links
        else collect_loop base_url base_domain same_domain rest
               ({[abs_url]} ∪ links)
  end.

Definition collect_links (base_url html : string) (same_domain : bool)
  : result (list string) :=
  base ← urlparse ext base_url;
  links ← collect_loop base_url (netloc base) same_domain
            (find_all_a_href ext html) ∅;
  mret (elements links).

(** *** save_txt *)
Definition save_content (url : string) (title : option string)
    (text now : string) : string :=
  let header :=
    [ "URL: " +:+ url;
      Py.strip ("TITLE: " +:+ or_empty title);
      "CRAWLED_AT: " +:+ now ] in
  let header_str := Py.join nl header +:+ nl +:+ nl in
  header_str +:+ Py.strip text +:+ nl.

(** [open(path, "w")] and [f.write(content)], kept in [written]. *)
Definition write_out (url out_dir name content : string) : M St unit :=
  fun s =>
    let '(r, w) := write_file ext out_dir name content (world s) in
    let done :=
      match r with
      | Ok _ => true
      | Raise _ => false
      end in
    (r, push_write (mkWrite url out_dir name content done) (set_world w s)).

Definition save_txt (out_dir url : string) (title : option string)
    (text : string) : M St Z :=
  slug ← pure (slugify url);
  let name := slug +:+ ".txt" in
  now ← gets (fun s => strftime ext (world s));
  let content := save_content url title text now in
  write_out url out_dir name content;;
  mret (Z.of_nat (List.length (Py.encode_utf8 content))).

(** *** process_url (the closure inside main) *)

Definition add_seen_url (url : string) : M St unit :=
  modify (mark_url url).

Definition add_seen_hash (h : string) : M St unit :=
  modify (mark_hash h).

Definition add_total_bytes (added : Z) : M St unit :=
  modify (add_bytes added).

(** [total_bytes >= args.max_total_bytes] *)
Definition budget_exhausted (args : Args) (s : St) : bool :=
  max_total_bytes args <=? total_bytes s.

(** Lines 159-169, the general fetch: [None] stands for the two
    [return]s that end [process_url] after their log record. *)
Definition general_fetch (args : Args) (url : string)
  : M St (option (option string * string)) :=
  r ← call (session_get ext url (timeout args));
  let ctype := default EmptyString (content_type r) in
  if negb (Py.contains "text/html" ctype)
  then logging (SKIP_NONHTML url ctype);; mret None
  else
    let html := text r in
    '(title, text) ← pure (extract_with_trafilatura url html);
    if falsy text
       || (Z.of_nat (String.length (Py.strip (or_empty text))) <? 300)
    then logging (EXTRACTION_FAILED_SHORT url);; mret None
    else mret (Some (title, or_empty text)).

(** Lines 156-169: the Wikipedia fast path, else the general fetch. *)
Definition acquire (args : Args) (url : string)
  : M St (option (option string * string)) :=
  '(title, text) ← fetch_wikipedia_plain url (timeout args);
  if falsy text then general_fetch args url
  else mret (Some (title, or_empty text)).

(** Lines 171-181: deduplicate by content hash, then save. *)
Definition dedup_and_save (args : Args) (url : string)
    (title : option string) (text : string) : M St unit :=
  let h := sha1_hex (Py.strip text) in
  known ← gets (fun s => bool_decide (h ∈ seen_hashes s));
  if known : bool then logging (DUPLICATE url)
  else
    add_seen_hash h;;
    added ← save_txt (out args) url title text;
    add_total_bytes added;;
    total ← gets total_bytes;
    logging (SAVED url added total).

Definition process_url (args : Args) (url : string) : M St unit :=
  visited ← gets (fun s => bool_decide (url ∈ seen_urls s));
  if visited : bool then mret tt
  else
    add_seen_url url;;
    exhausted ← gets (budget_exhausted args);
    if exhausted : bool then mret tt
    else
      allowed ← ok_by_robots url (user_agent args);
      if negb allowed then logging (ROBOTS_BLOCKED url)
      else
        try_except
          (got ← acquire args url;
           match got with
           | None => mret tt
           | Some (title, text) => dedup_and_save args url title text
           end)
          (fun e => logging (ERROR url e)).

(** *** main: the loops over the seeds and over the links of a seed *)

Definition polite_delay (args : Args) : M St unit :=
  call (sleep_jitter ext (delay_seconds args)).

(** Lines 199-203. *)
Fixpoint follow_links (args : Args) (links : list string) : M St unit :=
  match links with
  | [] => mret tt
  | link :: rest =>
      exhausted ← gets (budget_exhausted args);
      if exhausted : bool then mret tt
      else
        process_url args link;;
        polite_delay args;;
        follow_links args rest
  end.

(** Lines 194-205. *)
Definition expand_seed (args : Args) (seed : string) : M St unit :=
  try_except
    (r ← call (session_get ext seed (timeout args));
     if ok r
        && Py.contains "text/html"
             (default EmptyString (content_type r))
     then
       links ← pure (collect_links seed (text r) (same_domain args));
       links ← call (fun w => let '(l, w') := shuffle ext links w in
                              (Ok l, w'));
       follow_links args (Py.slice_to (Z.max 0 (max_follow args)) links)
     else mret tt)
    (fun _ => logging (CRAWL_ERROR seed)).

(** Lines 186-205. *)
Fixpoint seed_loop (args : Args) (seeds : list string) : M St unit :=
  match seeds with
  | [] => mret tt
  | seed :: rest =>
      exhausted ← gets (budget_exhausted args);
      if exhausted : bool then mret tt
      else
        process_url args seed;;
        polite_delay args;;
        exhausted ← gets (budget_exhausted args);
        (if crawl args && negb exhausted
         then expand_seed args seed
         else mret tt);;
        seed_loop args rest
  end.

(** The state [main] starts from (lines 137-139). *)
Definition initial (w : World) : St := mkState 0 ∅ ∅ [] [] w.

(** [main] from the parsed arguments on: it reads the seeds and runs the
    loop.  The outcome is [Raise] when an exception leaves [main]. *)
Definition main (args : Args) : M St unit :=
  seeds ← read_seeds (seeds args);
  seed_loop args seeds.

Definition run (args : Args) (w : World) : result unit * St :=
  main args (initial w).

End Scraper.

(** ** A model of [urllib.parse], to run the script on examples

    [urlsplit], [urlparse], [urlunparse] and [urljoin] as CPython 3.11 has
    them, on strings.  A host in brackets is only checked for a missing
    bracket; the address inside is not validated. *)

Module Urllib.

Definition is_char (c : ascii) : ascii -> bool := fun x => Ascii.eqb x c.

Definition one_of (chars : string) : ascii -> bool :=
  fun x => bool_decide (x ∈ list_ascii_of_string chars).

(** The characters before the first one satisfying [p], and the rest
    from that character on. *)
Fixpoint span (p : ascii -> bool) (s : string) : string * string :=
  match s with
  | EmptyString => (EmptyString, EmptyString)
  | String c s' =>
      if p c then (EmptyString, s)
      else let '(a, r) := span p s' in (String c a, r)
  end.

(** [s.split(c, 1)] when [c] occurs in [s]. *)
Definition split1 (c : ascii) (s : string) : option (string * string) :=
  match span (is_char c) s with
  | (a, String _ r) => Some (a, r)
  | (_, EmptyString) => None
  end.

Fixpoint all_chars (p : ascii -> bool) (s : string) : bool :=
  match s with
  | EmptyString => true
  | String c s' => p c && all_chars p s'
  end.

Fixpoint remove_chars (p : ascii -> bool) (s : string) : string :=
  match s with
  | EmptyString => EmptyString
  | String c s' =>
      if p c then remove_chars p s' else String c (remove_chars p s')
  end.

Definition is_ascii_alpha (c : ascii) : bool :=
  let n := N_of_ascii c in
  ((97 <=? n) && (n <=? 122) || (65 <=? n) && (n <=? 90))%N.

Definition scheme_char (c : ascii) : bool :=
  let n := N_of_ascii c in
  is_ascii_alpha c
  || ((48 <=? n) && (n <=? 57) || (n =? 43) || (n =? 45) || (n =? 46))%N.

Definition lower_char (c : ascii) : ascii :=
  let n := N_of_ascii c in
  if ((65 <=? n) && (n <=? 90))%N then ascii_of_N (n + 32) else c.

Fixpoint lower (s : string) : string :=
  match s with
  | EmptyString => EmptyString
  | String c s' => String (lower_char c) (lower s')
  end.

Definition c0_or_space (c : ascii) : bool := (N_of_ascii c <=? 32)%N.

Definition uses_relative : list string :=
  [EmptyString; "ftp"; "http"; "gopher"; "nntp"; "imap"; "wais"; "file";
   "https"; "shttp"; "mms"; "prospero"; "rtsp"; "rtspu"; "sftp"; "svn";
   "svn+ssh"; "ws"; "wss"].

Definition uses_netloc : list string :=
  [EmptyString; "ftp"; "http"; "gopher"; "nntp"; "telnet"; "imap"; "wais";
   "file"; "mms"; "https"; "shttp"; "snews"; "prospero"; "rtsp"; "rtspu";
   "rsync"; "svn"; "svn+ssh"; "sftp"; "nfs"; "git"; "git+ssh"; "ws"; "wss"].

Definition uses_params : list string :=
  [EmptyString; "ftp"; "hdl"; "prospero"; "http"; "imap"; "https"; "shttp";
   "rtsp"; "rtspu"; "sip"; "sips"; "mms"; "sftp"; "tel"].

Definition mem (x : string) (l : list string) : bool :=
  bool_decide (x ∈ l).

Record SplitResult := mkSplit {
  s_scheme : string; s_netloc : string; s_url : string;
  s_query : string; s_fragment : string
}.

Definition urlsplit (url0 scheme0 : string) : result SplitResult :=
  let url := Py.lstrip_by c0_or_space url0 in
  let unsafe := one_of (String "009" (String "013" (String "010" EmptyString))) in
  let url := remove_chars unsafe url in
  let scheme0 := remove_chars unsafe (Py.strip_by c0_or_space scheme0) in
  let '(scheme, url) :=
    match span (is_char ":") url with
    | (String c0 a, String _ r) =>
        if is_ascii_alpha c0 && all_chars scheme_char (String c0 a)
        then (lower (String c0 a), r)
        else (scheme0, url)
    | _ => (scheme0, url)
    end in
  let '(netloc, url) :=
    match url with
    | String "/" (String "/" rest) => span (one_of "/?#") rest
    | _ => (EmptyString, url)
    end in
  if xorb (Py.contains "[" netloc) (Py.contains "]" netloc)
  then Raise "Invalid IPv6 URL"
  else
    let '(url, fragment) :=
      match split1 "#" url with
      | Some (u, f) => (u, f)
      | None => (url, EmptyString)
      end in
    let '(url, query) :=
      match split1 "?" url with
      | Some (u, q) => (u, q)
      | None => (url, EmptyString)
      end in
    Ok (mkSplit scheme netloc url query fragment).

(** The part of [s] up to and with its last slash, and what follows. *)
Fixpoint rsplit_slash (s : string) : string * string :=
  match s with
  | EmptyString => (EmptyString, EmptyString)
  | String c s' =>
      if Py.contains "/" s'
      then let '(d, l) := rsplit_slash s' in (String c d, l)
      else if Ascii.eqb c "/" then (String c EmptyString, s')
      else (EmptyString, s)
  end.

Definition splitparams (url : string) : string * string :=
  let '(dir, seg) := rsplit_slash url in
  match split1 ";" seg with
  | Some (a, p) => (dir +:+ a, p)
  | None => (url, EmptyString)
  end.

Definition urlparse_with (url scheme0 : string) : result ParseResult :=
  sp ← urlsplit url scheme0;
  let '(url', params) :=
    if mem (s_scheme sp) uses_params && Py.contains ";" (s_url sp)
    then splitparams (s_url sp)
    else (s_url sp, EmptyString) in
  mret (mkParseResult (s_scheme sp) (s_netloc sp) url' params
          (s_query sp) (s_fragment sp)).

(** [urlparse(url)] *)
Definition urlparse (url : string) : result ParseResult :=
  urlparse_with url EmptyString.

Definition urlunsplit (scheme netloc url query fragment : string)
  : string :=
  let url :=
    if Py.truthy netloc
       || (Py.truthy scheme && mem scheme uses_netloc
           && negb (Py.startswith url "//"))
    then "//" +:+ netloc +:+
         (if Py.truthy url && negb (Py.startswith url "/")
          then "/" +:+ url else url)
    else url in
  let url := if Py.truthy scheme then scheme +:+ ":" +:+ url else url in
  let url := if Py.truthy query then url +:+ "?" +:+ query else url in
  if Py.truthy fragment then url +:+ "#" +:+ fragment else url.

Definition urlunparse (p : ParseResult) : string :=
  let url :=
    if Py.truthy (params p) then path p +:+ ";" +:+ params p else path p in
  urlunsplit (scheme p) (netloc p) url (query p) (fragment p).

(** [s.split("/")] *)
Fixpoint split_slash (cur s : string) : list string :=
  match s with
  | EmptyString => [cur]
  | String c s' =>
      if Ascii.eqb c "/" then cur :: split_slash EmptyString s'
      else split_slash (cur +:+ String c EmptyString) s'
  end.

(** [segments[1:-1] = filter(None, segments[1:-1])] *)
Definition drop_inner_empty (segments : list string) : list string :=
  match segments with
  | first :: rest =>
      match List.rev rest with
      | lst :: mid =>
          first :: List.rev (List.filter Py.truthy mid) ++ [lst]
      | [] => segments
      end
  | [] => []
  end.

(** The loop over the segments: [resolved] is kept reversed. *)
Fixpoint resolve (segments resolved : list string) : list string :=
  match segments with
  | [] => List.rev resolved
  | seg :: rest =>
      if String.eqb seg ".." then resolve rest (tl resolved)
      else if String.eqb seg "." then resolve rest resolved
      else resolve rest (seg :: resolved)
  end.

Definition urljoin (base url : string) : result string :=
  if negb (Py.truthy base) then Ok url
  else if negb (Py.truthy url) then Ok base
  else
    b ← urlparse base;
    u ← urlparse_with url (scheme b);
    if negb (String.eqb (scheme u) (scheme b))
       || negb (mem (scheme u) uses_relative)
    then Ok url
    else if mem (scheme u) uses_netloc && Py.truthy (netloc u)
    then Ok (urlunparse u)
    else
      let nloc := if mem (scheme u) uses_netloc then netloc b else netloc u in
      if negb (Py.truthy (path u)) && negb (Py.truthy (params u))
      then
        Ok (urlunparse
              (mkParseResult (scheme u) nloc (path b) (params b)
                 (if Py.truthy (query u) then query u else query b)
                 (fragment u)))
      else
        let base_parts := split_slash EmptyString (path b) in
        let base_parts :=
          if Py.truthy (List.last base_parts EmptyString)
          then removelast base_parts else base_parts in
        let segments :=
          if Py.startswith (path u) "/"
          then split_slash EmptyString (path u)
          else drop_inner_empty
                 (base_parts ++ split_slash EmptyString (path u)) in
        let resolved := resolve segments [] in
        let lst := List.last segments EmptyString in
        let resolved :=
          if String.eqb lst "." || String.eqb lst ".."
          then resolved ++ [EmptyString] else resolved in
        let joined := Py.join "/" resolved in
        Ok (urlunparse
              (mkParseResult (scheme u) nloc
                 (if Py.truthy joined then joined else "/")
                 (params u) (query u) (fragment u))).

End Urllib.

(** ** A small world to run the script in

    A handful of pages, one robots.txt that forbids everything, one host
    that is down.  The world is the list of requests made so far, latest
    first.  The pages are already plain text, so extraction hands back
    the markup it is given. *)

Module Demo.

Definition World : Type := list string.

Fixpoint times (n : nat) (s : string) : string :=
  match n with
  | O => EmptyString
  | S k => s +:+ times k s
  end.

(** 348 characters. *)
Definition article : string :=
  times 6 "Otters are carnivorous mammals in the subfamily Lutrinae. ".

Definition index_markup : string :=
  "<a href='/a'>A</a><a href='#top'>top</a>" +:+
  "<a href='mailto:me@example.com'>mail</a>" +:+
  "<a href='javascript:void(0)'>js</a>" +:+
  "<a href='https://example.com/x'>secure</a>" +:+
  "<a href='http://other.org/y'>other</a>" +:+
  "<a href=' mirror '>mirror</a><a href='/a'>again</a>".

Definition index_hrefs : list string :=
  [ "/a"; "#top"; "mailto:me@example.com"; "javascript:void(0)";
    "https://example.com/x"; "http://other.org/y"; " mirror "; "/a" ].

Definition html (body : string) : Response :=
  mkResponse 200 true (Some "text/html; charset=utf-8") body
    (Raise "JSONDecodeError").

Definition get (url : string) (timeout : Z) (w : World)
  : result Response * World :=
  let w' := url :: w in
  if String.eqb url "http://example.com/" then (Ok (html index_markup), w')
  else if String.eqb url "http://example.com/a"
  then (Ok (html article), w')
  else if String.eqb url "http://example.com/mirror"
  then (Ok (html ("  " +:+ article +:+ nl)), w')
  else if String.eqb url "http://example.com/paper.pdf"
  then (Ok (mkResponse 200 true (Some "application/pdf") "%PDF-1.4"
              (Raise "JSONDecodeError")), w')
  else if String.eqb url "http://example.com/stub"
  then (Ok (html "Too short to keep."), w')
  else if String.eqb url
            "https://en.wikipedia.org/api/rest_v1/page/plain/Otter"
  then (Ok (mkResponse 200 true (Some "text/plain")
              "Otters are carnivorous mammals."
              (Raise "JSONDecodeError")), w')
  else if String.eqb url
            "https://en.wikipedia.org/api/rest_v1/page/summary/Otter"
  then (Ok (mkResponse 200 true (Some "application/json") "{}"
              (Ok (Some "Otter"))), w')
  else if Py.startswith url "http://down.example/"
  then (Raise "ConnectionError", w')
  else (Ok (mkResponse 404 false (Some "text/html") "Not Found"
              (Raise "JSONDecodeError")), w').

(** The robots.txt of [blocked.example] forbids everything, the one of
    [down.example] cannot be read, every other one allows everything. *)
Definition robots (robots_url : string) (w : World)
  : result bool * World :=
  let w' := robots_url :: w in
  if String.eqb robots_url "http://blocked.example/robots.txt"
  then (Ok false, w')
  else if String.eqb robots_url "http://down.example/robots.txt"
  then (Raise "URLError", w')
  else (Ok true, w').

(** The file [seeds.txt]: a comment, a blank line, one page twice. *)
Definition seed_lines : list string :=
  [ "# seeds" +:+ nl; nl; "http://example.com/a" +:+ nl;
    "http://example.com/a" +:+ nl ].

(** The file [index.txt]: the page with the links. *)
Definition index_lines : list string := [ "http://example.com/" +:+ nl ].

Definition ext : Externals World :=
  {| urlparse := Urllib.urlparse;
     urljoin := Urllib.urljoin;
     unquote := fun s => s;
     RobotRules := bool;
     rp_read := robots;
     rp_can_fetch := fun rules _ _ => Ok rules;
     session_get := get;
     trafilatura_extract := fun markup =>
       Ok (if Py.truthy markup then Some markup else None);
     trafilatura_bare_extraction := fun _ => Ok None;
     find_all_a_href := fun markup =>
       if String.eqb markup index_markup then index_hrefs else [];
     strftime := fun _ => "2024-05-01 12:00:00";
     sleep_jitter := fun _ w => (Ok tt, w);
     shuffle := fun l w => (List.rev l, w);
     read_lines := fun path w =>
       (Ok (if String.eqb path "index.txt" then index_lines
            else seed_lines), w);
     write_file := fun _ _ _ w => (Ok tt, w) |}.

(** The defaults of the command line, with the seeds file, the budget,
    [--crawl], [--max-follow] and [--same-domain] as given. *)
Definition args_with (seeds : string) (budget : Z) (crawl : bool)
    (max_follow : Z) (same_domain : bool) : Args :=
  {| seeds := seeds; out := "corpus"; max_total_bytes := budget;
     delay_seconds := (2, 1); timeout := 20; crawl := crawl;
     max_follow := max_follow; same_domain := same_domain;
     user_agent := "RAG-Course-Scraper/1.0" |}.

Definition args : Args := args_with "seeds.txt" 1200000 false 5 false.

Definition ua : string := user_agent args.

(** The pages and the command lines of the examples. *)
Definition blocked : string := "http://blocked.example/secret".
Definition down : string := "http://down.example/page".
Definition page_a : string := "http://example.com/a".
Definition mirror : string := "http://example.com/mirror".
Definition pdf : string := "http://example.com/paper.pdf".
Definition stub : string := "http://example.com/stub".
Definition index : string := "http://example.com/".
Definition secure_link : string := "https://example.com/x".
Definition collide_1 : string := "http://example.com/a?id=53915".
Definition collide_2 : string := "http://example.com/a?id=87090".

Definition negative_budget : Args :=
  args_with "seeds.txt" (-1000000) false 5 false.
Definition small_budget : Args := args_with "seeds.txt" 100 false 5 false.
Definition crawl_index (max_follow : Z) : Args :=
  args_with "index.txt" 1200000 true max_follow true.

End Demo.

(** ** Vocabulary of the properties *)

Definition is_saved (r : log_record) : bool :=
  match r with
  | SAVED _ _ _ => true
  | _ => false
  end.

(** The [SAVED] records of a log, latest first. *)
Definition saved (l : list log_record) : list log_record :=
  List.filter is_saved l.

(** The size of the page accepted last, 0 when none was. *)
Definition last_page (l : list log_record) : Z :=
  match saved l with
  | SAVED _ added _ :: _ => added
  | _ => 0
  end.

(** How many [SAVED] records a log has for [u]. *)
Definition saves_for (u : string) (l : list log_record) : nat :=
  List.length
    (List.filter
       (fun r => match r with
                 | SAVED url _ _ => String.eqb url u
                 | _ => false
                 end) l).

(** How many times a file was opened for writing the page of [u]. *)
Definition writes_for (u : string) (ws : list file_write) : nat :=
  List.length (List.filter (fun e => String.eqb (fw_url e) u) ws).

(** Two states that differ at most in the world and in log records other
    than [SAVED]: nothing was marked, counted or written in between. *)
Definition quiet {World} (s s' : state World) : Prop :=
  total_bytes s' = total_bytes s /\ seen_hashes s' = seen_hashes s /\
  seen_urls s' = seen_urls s /\ written s' = written s /\
  saved (log s') = saved (log s).

(** The bytes [save_txt] reports for a write. *)
Definition page_bytes (e : file_write) : Z :=
  Z.of_nat (List.length (Py.encode_utf8 (fw_content e))).

(** What one call [process_url(u)] may do to the state: it marks [u]; it
    forgets no fingerprint; and either it leaves the bytes, the files and
    the [SAVED] records alone, or [u] was new and the budget open and it
    opened one file for [u], counting and logging it when the write went
    through. *)
Definition process_step {World} (args : Args) (u : string)
    (s s' : state World) : Prop :=
  (seen_urls s' = {[u]} ∪ seen_urls s) ∧
  (seen_hashes s ⊆ seen_hashes s') ∧
  ((total_bytes s' = total_bytes s ∧ saved (log s') = saved (log s) ∧
    written s' = written s)
   ∨
   ((u ∉ seen_urls s) ∧ (max_total_bytes args <=? total_bytes s) = false ∧
    ∃ e, fw_url e = u ∧ (written s' = e :: written s) ∧
      ((fw_ok e = false ∧ total_bytes s' = total_bytes s ∧
        saved (log s') = saved (log s))
       ∨
       (fw_ok e = true ∧
        total_bytes s' = total_bytes s + page_bytes e ∧
        saved (log s') =
          SAVED u (page_bytes e) (total_bytes s') :: saved (log s))))).

(** The budget invariant of a run: no page accepted yet and no byte
    counted, or the latest [SAVED] record carries the current total and the
    total before that page was still under the budget. *)
Definition budget_inv {World} (args : Args) (s : state World) : Prop :=
  (saved (log s) = [] ∧ total_bytes s = 0) ∨
  (∃ u added rest,
      saved (log s) = SAVED u added (total_bytes s) :: rest ∧
      0 <= added ∧ total_bytes s - added < max_total_bytes args).

(** The sum of the sizes in the [SAVED] records of a log. *)
Fixpoint sum_saved (l : list log_record) : Z :=
  match l with
  | [] => 0
  | SAVED _ added _ :: rest => added + sum_saved rest
  | _ :: rest => sum_saved rest
  end.

(** The exactly-once invariant of a run: a URL has at most one write and
    one [SAVED] record, none while it is not marked visited, and the
    bytes counted are those of the [SAVED] records. *)
Definition once_inv {World} (s : state World) : Prop :=
  total_bytes s = sum_saved (log s) ∧
  ∀ u, (writes_for u (written s) <= 1)%nat ∧
       (saves_for u (log s) <= 1)%nat ∧
       (u ∉ seen_urls s →
        writes_for u (written s) = 0%nat ∧ saves_for u (log s) = 0%nat).

(** The relation of the states between which [I] is kept. *)
Definition preserves {S} (I : S -> Prop) : S -> S -> Prop :=
  fun s s' => I s -> I s'.

(** The origin of a parsed URL, as [ok_by_robots] writes it. *)
Definition origin (p : ParseResult) : string :=
  scheme p +:+ "://" +:+ netloc p.

(** robots.txt of the origin of [url] was read in world [w] and forbids
    [url] to [ua]. *)
Definition robots_disallows {World} (ext : Externals World)
    (url ua : string) (w : World) : Prop :=
  ∃ parsed rp w',
    urlparse ext url = Ok parsed ∧
    rp_read ext (scheme parsed +:+ "://" +:+ netloc parsed +:+ "/robots.txt") w
      = (Ok rp, w') ∧
    rp_can_fetch ext rp ua url = Ok false.

(** [u] is what [collect_links] makes of the anchor [a]: the href is
    trimmed, is none of the three dropped kinds, joins with the base into
    [u], and with [same_domain] the netloc of [u] is the one of the base. *)
Definition link_of {World} (ext : Externals World)
    (base_url base_domain : string) (same_domain : bool) (a u : string)
  : Prop :=
  let href := Py.strip a in
  Py.startswith href "#" = false ∧
  Py.startswith href "mailto:" = false ∧
  Py.startswith href "javascript:" = false ∧
  urljoin ext base_url href = Ok u ∧
  (same_domain = true →
   ∃ p, urlparse ext u = Ok p ∧ netloc p = base_domain).

(** Every URL marked in [s'] was marked in [s] or is one of [urls]. *)
Definition visited_among {World} (urls : list string)
    (s s' : state World) : Prop :=
  ∀ u, u ∈ seen_urls s' → u ∈ seen_urls s ∨ u ∈ urls.

(** A computation that relates every state to the state it leaves, however
    it ends. *)
Definition keeps {S A} (R : S -> S -> Prop) (m : M S A) : Prop :=
  forall s, R s (m s).2.

(** ** Vocabulary of the further properties *)

(** A name made of the characters [[a-zA-Z0-9\-_.]] only. *)
Definition safe_name (s : string) : bool := Urllib.all_chars Py.slug_char s.

(** The log of [s'] is the log of [s] with records added in front. *)
Definition log_extends {World} (s s' : state World) : Prop :=
  ∃ l, log s' = l ++ log s.

(** Nothing is taken back between [s] and [s']: the bytes do not go down,
    no mark is removed, the files and the log are only added to. *)
Definition grows {World} (s s' : state World) : Prop :=
  total_bytes s <= total_bytes s' ∧
  seen_hashes s ⊆ seen_hashes s' ∧
  seen_urls s ⊆ seen_urls s' ∧
  (∃ ws, written s' = ws ++ written s) ∧
  log_extends s s'.

(** No more files opened than fingerprints marked, no more fingerprints
    than URLs marked. *)
Definition counts_inv {World} (s : state World) : Prop :=
  (List.length (written s) <= size (seen_hashes s))%nat ∧
  (size (seen_hashes s) <= size (seen_urls s))%nat.

(** A line of the seeds file that [read_seeds] skips. *)
Definition skipped_line (ln : string) : bool :=
  negb (Py.truthy (Py.strip ln)) || Py.startswith (Py.strip ln) "#".

(** The title [fetch_wikipedia_plain] falls back to. *)
Definition wiki_title {World} (ext : Externals World) (parsed : ParseResult)
  : string :=
  unquote ext (Py.split_last "/wiki/" (path parsed)).

(** ** A world where things fail

    The small world, with a disk that refuses every write, a summary
    endpoint that times out, a page with a link that does not parse, a
    seeds file of comments and one with a URL that does not parse. *)

Module Faulty.

Definition sea_otter : string := "https://en.wikipedia.org/wiki/Sea_otter".
Definition sea_otter_text : string := "Sea otters float on their backs.".
Definition bad_url : string := "http://[bad".
Definition broken : string := "http://example.com/broken".

Definition broken_markup : string :=
  "<a href='/a'>A</a><a href='http://[bad'>bad</a>".

Definition broken_hrefs : list string := [ "/a"; "http://[bad" ].

Definition get (url : string) (timeout : Z) (w : Demo.World)
  : result Response * Demo.World :=
  if String.eqb url
       "https://en.wikipedia.org/api/rest_v1/page/plain/Sea_otter"
  then (Ok (mkResponse 200 true (Some "text/plain") sea_otter_text
              (Raise "JSONDecodeError")), url :: w)
  else if String.eqb url
            "https://en.wikipedia.org/api/rest_v1/page/summary/Sea_otter"
  then (Raise "ReadTimeout", url :: w)
  else if String.eqb url broken
  then (Ok (Demo.html broken_markup), url :: w)
  else Demo.get url timeout w.

Definition comment_lines : list string :=
  [ "# nothing to fetch" +:+ nl; "   " +:+ nl; nl; "  # indented" +:+ nl ].

Definition bad_lines : list string :=
  [ bad_url +:+ nl; "http://example.com/a" +:+ nl ].

Definition ext : Externals Demo.World :=
  {| urlparse := urlparse Demo.ext;
     urljoin := urljoin Demo.ext;
     unquote := unquote Demo.ext;
     RobotRules := bool;
     rp_read := Demo.robots;
     rp_can_fetch := fun rules _ _ => Ok rules;
     session_get := get;
     trafilatura_extract := trafilatura_extract Demo.ext;
     trafilatura_bare_extraction := fun _ => Raise "ParserError";
     find_all_a_href := fun markup =>
       if String.eqb markup broken_markup then broken_hrefs
       else find_all_a_href Demo.ext markup;
     strftime := strftime Demo.ext;
     sleep_jitter := sleep_jitter Demo.ext;
     shuffle := shuffle Demo.ext;
     read_lines := fun path w =>
       (Ok (if String.eqb path "comments.txt" then comment_lines
            else if String.eqb path "bad.txt" then bad_lines
            else Demo.seed_lines), w);
     write_file := fun _ _ _ w => (Raise "OSError: disk full", w) |}.

Definition args_of (seeds : string) : Args :=
  Demo.args_with seeds 1200000 false 5 false.

End Faulty.

(** The file [e] is where [save_txt] puts the page of its URL, under the
    name [slugify] gives, and holds the header of that URL over a text
    that is not blank. *)
Definition placed {World} (ext : Externals World) (args : Args)
    (e : file_write) : Prop :=
  fw_dir e = out args ∧
  (∃ slug, slugify ext (fw_url e) = Ok slug ∧ fw_name e = slug +:+ ".txt") ∧
  (∃ title text now,
      Py.truthy (Py.strip text) = true ∧
      fw_content e = save_content (fw_url e) title text now).

(** Every file opened so far is for a marked URL and is placed. *)
Definition files_inv {World} (ext : Externals World) (args : Args)
    (s : state World) : Prop :=
  ∀ e, e ∈ written s → fw_url e ∈ seen_urls s ∧ placed ext args e.

(** ** SHA-1 on the test vectors of FIPS 180 *)

Example sha1_abc :
  sha1_hex "abc" = "a9993e364706816aba3e25717850c26c9cd0d89d".
Proof. vm_compute. reflexivity. Qed.

Example sha1_empty :
  sha1_hex EmptyString = "da39a3ee5e6b4b0d3255bfef95601890afd80709".
Proof. vm_compute. reflexivity. Qed.

(** ** Rules of the monad *)

Section MonadRules.

Context {S : Type}.

Lemma bind_ok {A B} (m : M S A) (k : A -> M S B) s a s' :
  m s = (Ok a, s') -> (m ≫= k) s = k a s'.
Proof. intros H. unfold mbind, M_bind. now rewrite H. Qed.

Lemma bind_raise {A B} (m : M S A) (k : A -> M S B) s e s' :
  m s = (Raise e, s') -> (m ≫= k) s = (Raise e, s').
Proof. intros H. unfold mbind, M_bind. now rewrite H. Qed.

Lemma try_ok {A} (m : M S A) h s a s' :
  m s = (Ok a, s') -> try_except m h s = (Ok a, s').
Proof. intros H. unfold try_except. now rewrite H. Qed.

Lemma try_raise {A} (m : M S A) h s e s' :
  m s = (Raise e, s') -> try_except m h s = h e s'.
Proof. intros H. unfold try_except. now rewrite H. Qed.

Lemma bind_gets {A B} (f : S -> A) (k : A -> M S B) s :
  (gets f ≫= k) s = k (f s) s.
Proof. reflexivity. Qed.

Lemma bind_modify {B} (f : S -> S) (k : unit -> M S B) s :
  (modify f ≫= k) s = k tt (f s).
Proof. reflexivity. Qed.

Lemma bind_ret {A B} (a : A) (k : A -> M S B) s :
  (mret a ≫= k) s = k a s.
Proof. reflexivity. Qed.

Lemma bind_pure {A B} (r : result A) (k : A -> M S B) s :
  (pure r ≫= k) s =
  match r with
  | Ok a => k a s
  | Raise e => (Raise e, s)
  end.
Proof. destruct r; reflexivity. Qed.

Lemma bind_bind {A B C} (m : M S A) (k1 : A -> M S B) (k2 : B -> M S C) s :
  ((m ≫= k1) ≫= k2) s = (m ≫= (fun a => k1 a ≫= k2)) s.
Proof.
  unfold mbind, M_bind. destruct (m s) as [[a|e] s1]; reflexivity.
Qed.

Variable R : S -> S -> Prop.
Context `{!PreOrder R}.

Lemma keeps_ret {A} (a : A) : keeps R (mret a : M S A).
Proof. intros s. reflexivity. Qed.

Lemma keeps_pure {A} (r : result A) : keeps R (pure r : M S A).
Proof. intros s. reflexivity. Qed.

Lemma keeps_gets {A} (f : S -> A) : keeps R (gets f).
Proof. intros s. reflexivity. Qed.

Lemma keeps_bind {A B} (m : M S A) (k : A -> M S B) :
  keeps R m -> (forall a, keeps R (k a)) -> keeps R (m ≫= k).
Proof.
  intros Hm Hk s. unfold mbind, M_bind.
  specialize (Hm s). destruct (m s) as [[a|e] s1]; simpl in *.
  - etransitivity; [exact Hm | apply Hk].
  - exact Hm.
Qed.

Lemma keeps_try {A} (m : M S A) (h : string -> M S A) :
  keeps R m -> (forall e, keeps R (h e)) -> keeps R (try_except m h).
Proof.
  intros Hm Hh s. unfold try_except.
  specialize (Hm s). destruct (m s) as [[a|e] s1]; simpl in *.
  - exact Hm.
  - etransitivity; [exact Hm | apply Hh].
Qed.

Lemma keeps_modify (f : S -> S) :
  (forall s, R s (f s)) -> keeps R (modify f).
Proof. intros H s. apply H. Qed.

End MonadRules.

(** Splits a goal [keeps R m] along the shape of [m]. *)
Ltac keeps_step :=
  match goal with
  | |- keeps _ (mret _) => apply keeps_ret; apply _
  | |- keeps _ (pure _) => apply keeps_pure; apply _
  | |- keeps _ (gets _) => apply keeps_gets; apply _
  | |- keeps _ (_ ≫= _) => apply keeps_bind; [ apply _ | | intros ? ]
  | |- keeps _ (try_except _ _) => apply keeps_try; [ apply _ | | intros ? ]
  | |- keeps _ (if ?b then _ else _) => destruct b
  | |- keeps _ (match ?x with _ => _ end) => destruct x
  end.

Section Quiet.

Context {World : Type}.

Global Instance quiet_preorder : PreOrder (@quiet World).
Proof.
  split.
  - intros s. unfold quiet. tauto.
  - intros a b c (H1 & H2 & H3 & H4 & H5) (G1 & G2 & G3 & G4 & G5).
    unfold quiet. repeat split; congruence.
Qed.

Lemma quiet_sym (s s' : state World) : quiet s s' -> quiet s' s.
Proof. unfold quiet. intuition congruence. Qed.

Lemma quiet_set_world (w : World) s : quiet s (set_world w s).
Proof. unfold quiet. simpl. tauto. Qed.

Lemma quiet_push_log r (s : state World) :
  is_saved r = false -> quiet s (push_log r s).
Proof.
  intros H. unfold quiet, saved. simpl. rewrite H. tauto.
Qed.

End Quiet.

(** ** What the parts of [process_url] leave alone *)

Section Frames.

Context {World : Type}.
Variable ext : Externals World.

Lemma call_quiet {A} (op : World -> result A * World) :
  keeps quiet (call op).
Proof.
  intros s. unfold call. destruct (op (world s)) as [r w]. simpl.
  apply quiet_set_world.
Qed.

Lemma logging_quiet r :
  is_saved r = false -> keeps (@quiet World) (logging r).
Proof. intros H s. apply quiet_push_log, H. Qed.

Hint Resolve call_quiet logging_quiet : core.

Lemma ok_by_robots_quiet url ua : keeps quiet (ok_by_robots ext url ua).
Proof. unfold ok_by_robots. repeat keeps_step; auto. Qed.

Lemma fetch_wikipedia_plain_quiet url t :
  keeps quiet (fetch_wikipedia_plain ext url t).
Proof. unfold fetch_wikipedia_plain. repeat keeps_step; auto. Qed.

Lemma general_fetch_quiet args url :
  keeps quiet (general_fetch ext args url).
Proof. unfold general_fetch. repeat keeps_step; auto. Qed.

Lemma acquire_quiet args url : keeps quiet (acquire ext args url).
Proof.
  unfold acquire. repeat keeps_step;
    auto using fetch_wikipedia_plain_quiet, general_fetch_quiet.
Qed.

Lemma polite_delay_quiet args : keeps quiet (polite_delay ext args).
Proof. apply call_quiet. Qed.

End Frames.

(** ** One call of [process_url] *)

Section ProcessUrl.

Context {World : Type}.
Variable ext : Externals World.
Variable args : Args.

Lemma process_step_quiet_r u (s s1 s2 : state World) :
  process_step args u s s1 -> quiet s1 s2 -> process_step args u s s2.
Proof.
  intros H (Q1 & Q2 & Q3 & Q4 & Q5). unfold process_step in *.
  rewrite Q1, Q2, Q3, Q4, Q5. exact H.
Qed.

Lemma save_txt_cases url title text (s : state World) :
  let r := save_txt ext (out args) url title text s in
  (quiet s r.2 /\ exists e, r.1 = Raise e) \/
  (exists e, fw_url e = url /\
     quiet (push_write e s) r.2 /\
     ((fw_ok e = false /\ exists x, r.1 = Raise x) \/
      (fw_ok e = true /\ r.1 = Ok (page_bytes e)))).
Proof.
  unfold save_txt, pure, gets, mbind, M_bind, write_out. simpl.
  destruct (slugify ext url) as [slug|x]; simpl.
  2:{ left. split; [reflexivity | eauto]. }
  right.
  destruct (write_file ext _ _ _ (world s)) as [[[]|x] w]; simpl.
  - exists (mkWrite url (out args) (slug +:+ ".txt")
              (save_content url title text (strftime ext (world s))) true).
    split; [reflexivity | ]. split; [unfold quiet; simpl; tauto | ].
    right. split; reflexivity.
  - exists (mkWrite url (out args) (slug +:+ ".txt")
              (save_content url title text (strftime ext (world s))) false).
    split; [reflexivity | ]. split; [unfold quiet; simpl; tauto | ].
    left. split; [reflexivity | eauto].
Qed.

Lemma dedup_and_save_step url title text (s : state World) :
  let h := sha1_hex (Py.strip text) in
  let s' := (dedup_and_save ext args url title text s).2 in
  quiet s s' \/
  ((h ∉ seen_hashes s) /\
   (quiet (mark_hash h s) s' \/
    exists e, fw_url e = url /\
      ((fw_ok e = false /\ quiet (push_write e (mark_hash h s)) s') \/
       (fw_ok e = true /\ exists s1,
          quiet (push_write e (mark_hash h s)) s1 /\
          s' = push_log (SAVED url (page_bytes e)
                           (total_bytes s + page_bytes e))
                 (add_bytes (page_bytes e) s1))))).
Proof.
  intros h s'. subst s'. unfold dedup_and_save. fold h.
  rewrite bind_gets.
  destruct (bool_decide_reflect (h ∈ seen_hashes s)) as [Hin|Hnin].
  - left. apply quiet_push_log. reflexivity.
  - right. split; [exact Hnin|].
    unfold add_seen_hash. rewrite bind_modify.
    pose proof (save_txt_cases url title text (mark_hash h s)) as C.
    simpl in C.
    destruct (save_txt ext (out args) url title text (mark_hash h s))
      as [[added|x] s1] eqn:E; simpl in C.
    * rewrite (bind_ok _ _ _ _ _ E).
      destruct C as [[_ [x Hx]] | (e & Hu & Q & [[_ [x Hx]] | [Hok Hr]])];
        try discriminate.
      injection Hr as ->.
      right. exists e. split; [exact Hu|]. right. split; [exact Hok|].
      exists s1. split; [exact Q|].
      unfold add_total_bytes. rewrite bind_modify, bind_gets.
      unfold logging, modify. simpl.
      destruct Q as (Q1 & _). simpl in Q1. rewrite Q1. reflexivity.
    * rewrite (bind_raise _ _ _ _ _ E). simpl.
      destruct C as [[Q _] | (e & Hu & Q & [[Hok _] | [_ Hr]])];
        try discriminate.
      -- left. exact Q.
      -- right. exists e. split; [exact Hu|]. left. split; [exact Hok | exact Q].
Qed.

Lemma dedup_process_step u title text (s s2 : state World) :
  u ∉ seen_urls s ->
  budget_exhausted args (mark_url u s) = false ->
  quiet (mark_url u s) s2 ->
  process_step args u s (dedup_and_save ext args u title text s2).2.
Proof.
  intros Hnin B (Q1 & Q2 & Q3 & Q4 & Q5).
  pose proof (dedup_and_save_step u title text s2) as D. simpl in D.
  set (s3 := (dedup_and_save ext args u title text s2).2) in *.
  set (h := sha1_hex (Py.strip text)) in *.
  unfold budget_exhausted in B. simpl in *.
  unfold process_step.
  destruct D as [(D1 & D2 & D3 & D4 & D5)
                | [Hh [(D1 & D2 & D3 & D4 & D5)
                      | (e & Hu & [[Hok (D1 & D2 & D3 & D4 & D5)]
                                  | [Hok (s1 & (D1 & D2 & D3 & D4 & D5) & ->)]])]]];
    simpl in *.
  - split; [congruence|]. split; [rewrite D2, Q2; done|]. left.
    repeat split; congruence.
  - split; [congruence|]. split; [rewrite D2, Q2; apply union_subseteq_r|]. left.
    repeat split; congruence.
  - split; [congruence|]. split; [rewrite D2, Q2; apply union_subseteq_r|]. right.
    split; [exact Hnin|]. split; [exact B|]. exists e.
    split; [exact Hu|]. split; [congruence|]. left.
    repeat split; congruence.
  - split; [congruence|]. split; [rewrite D2, Q2; apply union_subseteq_r|]. right.
    split; [exact Hnin|]. split; [exact B|]. exists e.
    split; [exact Hu|]. split; [congruence|]. right.
    split; [exact Hok|]. unfold saved in *. simpl.
    rewrite D1, Q1, D5, Q5. split; reflexivity.
Qed.

Lemma process_url_step u (s : state World) :
  process_step args u s (process_url ext args u s).2.
Proof.
  unfold process_url. rewrite bind_gets.
  destruct (bool_decide_reflect (u ∈ seen_urls s)) as [Hin|Hnin].
  { simpl. unfold process_step. split.
    { symmetry. apply subseteq_union_1_L, singleton_subseteq_l, Hin. }
    split; [done|]. left. done. }
  unfold add_seen_url. rewrite bind_modify, bind_gets.
  assert (base : forall s', quiet (mark_url u s) s' ->
                            process_step args u s s').
  { intros s' (Q1 & Q2 & Q3 & Q4 & Q5). unfold process_step. simpl in *.
    split; [congruence|]. split; [rewrite Q2; done|]. left.
    repeat split; congruence. }
  destruct (budget_exhausted args (mark_url u s)) eqn:B.
  { apply base. reflexivity. }
  pose proof (ok_by_robots_quiet ext u (user_agent args) (mark_url u s))
    as R1.
  destruct (ok_by_robots ext u (user_agent args) (mark_url u s))
    as [[allowed|x] s1] eqn:E1; simpl in R1.
  2:{ rewrite (bind_raise _ _ _ _ _ E1). apply base, R1. }
  rewrite (bind_ok _ _ _ _ _ E1).
  destruct allowed; simpl.
  2:{ apply base. etransitivity; [exact R1|].
      apply quiet_push_log. reflexivity. }
  pose proof (acquire_quiet ext args u s1) as R2.
  assert (R12 : quiet (mark_url u s) (acquire ext args u s1).2)
    by (etransitivity; [exact R1 | exact R2]).
  clear R2. unfold try_except.
  destruct (acquire ext args u s1) as [[got|x] s2] eqn:E2; simpl in R12.
  2:{ rewrite (bind_raise _ _ _ _ _ E2). simpl. apply base.
      etransitivity; [exact R12|]. apply quiet_push_log. reflexivity. }
  rewrite (bind_ok _ _ _ _ _ E2).
  destruct got as [[title text]|]; simpl.
  2:{ apply base, R12. }
  pose proof (dedup_process_step u title text s s2 Hnin B R12) as D.
  destruct (dedup_and_save ext args u title text s2) as [[[]|x] s3];
    simpl in *.
  - exact D.
  - eapply process_step_quiet_r; [exact D|].
    apply quiet_push_log. reflexivity.
Qed.

End ProcessUrl.

Global Instance preserves_preorder {S} (I : S -> Prop) : PreOrder (preserves I).
Proof. split; unfold preserves; [intros s; tauto | intros a b c; tauto]. Qed.

(** ** The loops of [main] keep what every call of [process_url] keeps *)

Section Loops.
Context {World : Type}.
Variable ext : Externals World.
Variable args : Args.
Variable R : state World -> state World -> Prop.
Context `{!PreOrder R}.
Hypothesis R_quiet : forall s s', quiet s s' -> R s s'.
(** The URLs whose processing is known to stay in [R]. *)
Variable P : string -> Prop.
Hypothesis R_step : forall u s s', P u -> process_step args u s s' -> R s s'.

Lemma quiet_keeps {A} (m : M (state World) A) : keeps quiet m -> keeps R m.
Proof. intros H s. apply R_quiet, H. Qed.

Lemma process_url_keeps u : P u -> keeps R (process_url ext args u).
Proof. intros Hu s. eapply R_step; [exact Hu|]. apply process_url_step. Qed.

Lemma follow_links_keeps links :
  Forall P links -> keeps R (follow_links ext args links).
Proof.
  induction 1 as [|link rest Hl Hrest IH]; simpl.
  - keeps_step.
  - repeat keeps_step; auto using process_url_keeps, quiet_keeps, polite_delay_quiet.
Qed.

Hypothesis links_ok : forall links,
  Forall P (Py.slice_to (Z.max 0 (max_follow args)) links).

Lemma expand_seed_keeps seed : keeps R (expand_seed ext args seed).
Proof.
  unfold expand_seed.
  repeat keeps_step; auto using follow_links_keeps, quiet_keeps, call_quiet, logging_quiet.
Qed.

Lemma seed_loop_keeps seeds :
  Forall P seeds -> keeps R (seed_loop ext args seeds).
Proof.
  induction 1 as [|seed rest Hs Hrest IH]; simpl.
  - keeps_step.
  - repeat keeps_step;
      auto using process_url_keeps, quiet_keeps, polite_delay_quiet, expand_seed_keeps.
Qed.

Lemma read_seeds_quiet path : keeps quiet (read_seeds ext path).
Proof. unfold read_seeds. repeat keeps_step. apply call_quiet. Qed.

End Loops.

(** ** Invariants of a run *)

Section Invariants.
Context {World : Type}.
Variable ext : Externals World.
Variable args : Args.

Lemma main_keeps (R : state World -> state World -> Prop) `{!PreOrder R} :
  (forall s s', quiet s s' -> R s s') ->
  (forall u s s', process_step args u s s' -> R s s') ->
  keeps R (main ext args).
Proof.
  intros Hq Hs. unfold main. apply keeps_bind; [apply _ | | intros seeds].
  - apply quiet_keeps; [exact Hq | apply read_seeds_quiet].
  - apply (seed_loop_keeps ext args R Hq (fun _ => True)).
    + intros u s s' _. apply Hs.
    + intros links. apply Forall_forall. trivial.
    + apply Forall_forall. trivial.
Qed.

Lemma saves_for_saved u l : saves_for u (saved l) = saves_for u l.
Proof.
  unfold saves_for, saved. induction l as [|r l IH]; [reflexivity|].
  destruct r; simpl; try exact IH.
  destruct (String.eqb url u); simpl; congruence.
Qed.

Lemma saves_for_cons_saved u v a t l :
  saves_for u (SAVED v a t :: l) =
  ((if String.eqb v u then 1 else 0) + saves_for u l)%nat.
Proof. unfold saves_for. simpl. destruct (String.eqb v u); reflexivity. Qed.

Lemma sum_saved_saved l : sum_saved (saved l) = sum_saved l.
Proof.
  unfold saved. induction l as [|r l IH]; [reflexivity|].
  destruct r; simpl; try exact IH. congruence.
Qed.

Lemma budget_inv_quiet (s s' : state World) :
  quiet s s' -> budget_inv args s -> budget_inv args s'.
Proof.
  intros (Q1 & _ & _ & _ & Q5). unfold budget_inv. rewrite Q1, Q5. tauto.
Qed.

Lemma page_bytes_nonneg e : 0 <= page_bytes e.
Proof. unfold page_bytes. lia. Qed.

Lemma budget_inv_step u (s s' : state World) :
  process_step args u s s' -> budget_inv args s -> budget_inv args s'.
Proof.
  intros (_ & _ & [(T & L & _) | (_ & B & e & _ & _ & [(_ & T & L) | (_ & T & L)])]).
  - unfold budget_inv. rewrite T, L. tauto.
  - unfold budget_inv. rewrite T, L. tauto.
  - intros _. right. exists u, (page_bytes e), (saved (log s)).
    split; [exact L|]. split; [apply page_bytes_nonneg|].
    apply Z.leb_gt in B. lia.
Qed.

Lemma budget_inv_run w : budget_inv args (run ext args w).2.
Proof.
  unfold run.
  apply (main_keeps (preserves (budget_inv args))).
  - exact budget_inv_quiet.
  - exact budget_inv_step.
  - left. split; reflexivity.
Qed.

Lemma once_inv_quiet (s s' : state World) :
  quiet s s' -> once_inv s -> once_inv s'.
Proof.
  intros (Q1 & _ & Q3 & Q4 & Q5) [T H]. split.
  - rewrite Q1, T, <- sum_saved_saved, <- Q5, sum_saved_saved. reflexivity.
  - intros u. rewrite Q3, Q4, <- (saves_for_saved u (log s')), Q5,
      saves_for_saved. apply H.
Qed.

Lemma once_inv_step v (s s' : state World) :
  process_step args v s s' -> once_inv s -> once_inv s'.
Proof.
  intros (U & _ & C) [T H].
  assert (Hmono : forall u, u ∉ seen_urls s' -> (u ∉ seen_urls s) /\ u <> v).
  { intros u Hu. rewrite U in Hu. split.
    - intros Hin. apply Hu, elem_of_union_r, Hin.
    - intros ->. apply Hu, elem_of_union_l, elem_of_singleton.
      reflexivity. }
  destruct C as [(T' & L & W) | (Hv & _ & e & He & W & C)].
  - split.
    + rewrite T', T, <- sum_saved_saved, <- L, sum_saved_saved. reflexivity.
    + intros u. rewrite W, <- (saves_for_saved u (log s')), L, saves_for_saved.
      destruct (H u) as (H1 & H2 & H3).
      split; [assumption|]. split; [assumption|].
      intros Hu. apply H3, Hmono, Hu.
  - assert (Hw : forall u, writes_for u (written s') =
              ((if String.eqb v u then 1 else 0) + writes_for u (written s))%nat).
    { intros u. rewrite W. unfold writes_for. simpl. rewrite He.
      destruct (String.eqb v u); reflexivity. }
    destruct (H v) as (_ & _ & Hv0). specialize (Hv0 Hv) as [Hv1 Hv2].
    destruct C as [(_ & T' & L) | (_ & T' & L)].
    + split.
      * rewrite T', T, <- sum_saved_saved, <- L, sum_saved_saved. reflexivity.
      * intros u. rewrite Hw, <- (saves_for_saved u (log s')), L, saves_for_saved.
        destruct (H u) as (H1 & H2 & H3).
        destruct (String.eqb_spec v u) as [->|Hne].
        -- rewrite Hv1. split; [lia|]. split; [assumption|].
           intros Hu. destruct (Hmono _ Hu). congruence.
        -- split; [assumption|]. split; [assumption|].
           intros Hu. apply H3, Hmono, Hu.
    + split.
      * rewrite <- sum_saved_saved, L. simpl. rewrite sum_saved_saved, T', T. lia.
      * intros u. rewrite Hw, <- (saves_for_saved u (log s')), L,
          saves_for_cons_saved, saves_for_saved.
        destruct (H u) as (H1 & H2 & H3).
        destruct (String.eqb_spec v u) as [->|Hne]; simpl.
        -- rewrite Hv1, Hv2. split; [lia|]. split; [lia|].
           intros Hu. destruct (Hmono _ Hu). congruence.
        -- split; [assumption|]. split; [assumption|].
           intros Hu. apply H3, Hmono, Hu.
Qed.

Lemma once_inv_run w : once_inv (run ext args w).2.
Proof.
  unfold run.
  apply (main_keeps (preserves once_inv)).
  - exact once_inv_quiet.
  - exact once_inv_step.
  - split; [reflexivity|]. intros u. unfold writes_for, saves_for. simpl.
    split; [lia|]. split; [lia|]. intros _. split; reflexivity.
Qed.

End Invariants.

(** ** Strings, and the relation of [visited_among] *)

Lemma length_append (a b : string) :
  String.length (a +:+ b) = (String.length a + String.length b)%nat.
Proof.
  induction a as [|x a IH]; [reflexivity|].
  change (S (String.length (a +:+ b))
          = S (String.length a + String.length b)).
  now rewrite IH.
Qed.

Lemma append_inj_same_length (a b c d : string) :
  a +:+ b = c +:+ d -> String.length b = String.length d -> a = c /\ b = d.
Proof.
  revert c. induction a as [|x a IH]; intros [|y c] H L.
  - change (b = d) in H. auto.
  - change (b = String y (c +:+ d)) in H. subst b. exfalso.
    change (S (String.length (c +:+ d)) = String.length d) in L.
    rewrite length_append in L. lia.
  - change (String x (a +:+ b) = d) in H. subst d. exfalso.
    change (String.length b = S (String.length (a +:+ b))) in L.
    rewrite length_append in L. lia.
  - change (String x (a +:+ b) = String y (c +:+ d)) in H.
    injection H as -> H. destruct (IH c H L) as [-> ->]. auto.
Qed.

Lemma sha1_prefix_length u : String.length (Py.take 8 (sha1_hex u)) = 8%nat.
Proof. reflexivity. Qed.

Global Instance visited_among_preorder {World} (urls : list string) :
  PreOrder (@visited_among World urls).
Proof.
  split.
  - intros s u H. left. exact H.
  - intros a b c Hab Hbc u H. destruct (Hbc u H) as [H'|H']; [|right; exact H'].
    apply Hab, H'.
Qed.

(** ** The claims *)

Section Claims.

Context {World : Type}.
Variable ext : Externals World.
Variable args : Args.

Lemma process_url_visited u (s : state World) :
  u ∈ seen_urls s -> process_url ext args u s = (Ok tt, s).
Proof.
  intros Hin. unfold process_url. rewrite bind_gets.
  rewrite (bool_decide_eq_true_2 _ Hin). reflexivity.
Qed.

Lemma process_url_marks u (s : state World) :
  u ∈ seen_urls (process_url ext args u s).2.
Proof.
  destruct (process_url_step ext args u s) as (U & _). rewrite U.
  apply elem_of_union_l, elem_of_singleton. reflexivity.
Qed.

Lemma process_url_keeps_marks u v (s : state World) :
  u ∈ seen_urls s -> u ∈ seen_urls (process_url ext args v s).2.
Proof.
  intros Hin. destruct (process_url_step ext args v s) as (U & _).
  rewrite U. apply elem_of_union_r, Hin.
Qed.

(** C3. A URL presented to [process_url] again has no effect: once
    marked, the call returns at the visited check with the state
    untouched; the first call marks it and no later call unmarks it.
    So in any run a URL has at most one file opened and at most one
    [SAVED] record, and [total_bytes] is the sum of the sizes in the
    [SAVED] records: no URL is counted twice. *)
Theorem process_url_at_most_once :
  (forall u (s : state World),
      u ∈ seen_urls s -> process_url ext args u s = (Ok tt, s)) /\
  (forall u (s : state World),
      u ∈ seen_urls (process_url ext args u s).2) /\
  (forall u v (s : state World),
      u ∈ seen_urls s -> u ∈ seen_urls (process_url ext args v s).2) /\
  (forall w u,
      let s := (run ext args w).2 in
      (writes_for u (written s) <= 1)%nat /\
      (saves_for u (log s) <= 1)%nat /\
      total_bytes s = sum_saved (log s)).
Proof.
  split; [exact process_url_visited|].
  split; [exact process_url_marks|].
  split; [exact process_url_keeps_marks|].
  intros w u s. destruct (once_inv_run ext args w) as [T H].
  destruct (H u) as (H1 & H2 & _). fold s in T, H1, H2. auto.
Qed.

Lemma last_page_of_saved (l : list log_record) u added total rest :
  saved l = SAVED u added total :: rest -> last_page l = added.
Proof. intros H. unfold last_page. now rewrite H. Qed.

Lemma seed_loop_exhausted seeds (s : state World) :
  budget_exhausted args s = true ->
  seed_loop ext args seeds s = (Ok tt, s).
Proof.
  intros B. destruct seeds as [|seed rest]; [reflexivity|].
  simpl. rewrite bind_gets, B. reflexivity.
Qed.

Lemma follow_links_exhausted links (s : state World) :
  budget_exhausted args s = true ->
  follow_links ext args links s = (Ok tt, s).
Proof.
  intros B. destruct links as [|link rest]; [reflexivity|].
  simpl. rewrite bind_gets, B. reflexivity.
Qed.

Lemma process_url_exhausted u (s : state World) :
  u ∉ seen_urls s -> budget_exhausted args s = true ->
  process_url ext args u s = (Ok tt, mark_url u s).
Proof.
  intros Hnin B. unfold process_url. rewrite bind_gets.
  rewrite (bool_decide_eq_false_2 _ Hnin).
  unfold add_seen_url. rewrite bind_modify, bind_gets.
  change (budget_exhausted args (mark_url u s))
    with (budget_exhausted args s).
  rewrite B. reflexivity.
Qed.

(** C2, amended. After any run, either no page was accepted and
    [total_bytes] is 0, or [total_bytes] without the page accepted last
    is under [max_total_bytes]; hence, for a budget that is not negative,
    [total_bytes] is at most [max_total_bytes] plus the size of the page
    accepted last.  The budget is looked at before each seed, before
    each followed link and at the start of each candidate, and an
    exhausted budget ends the loop or the call there. *)
Theorem total_bytes_within_budget :
  (forall w,
      let s := (run ext args w).2 in
      ((saved (log s) = [] /\ total_bytes s = 0) \/
       (0 <= last_page (log s) /\
        total_bytes s - last_page (log s) < max_total_bytes args)) /\
      (0 <= max_total_bytes args ->
       total_bytes s <= max_total_bytes args + last_page (log s))) /\
  (forall seeds (s : state World),
      budget_exhausted args s = true ->
      seed_loop ext args seeds s = (Ok tt, s)) /\
  (forall links (s : state World),
      budget_exhausted args s = true ->
      follow_links ext args links s = (Ok tt, s)) /\
  (forall u (s : state World),
      u ∉ seen_urls s -> budget_exhausted args s = true ->
      process_url ext args u s = (Ok tt, mark_url u s)).
Proof.
  split; [|split; [exact seed_loop_exhausted|
                   split; [exact follow_links_exhausted|
                           exact process_url_exhausted]]].
  intros w s.
  destruct (budget_inv_run ext args w) as [[L T] | (u & a & rest & L & A & B)];
    fold s in L, T || fold s in L, B.
  - split; [left; split; assumption|].
    intros Hmax. unfold last_page. rewrite L, T. lia.
  - rewrite (last_page_of_saved _ _ _ _ _ L).
    split; [right; split; assumption|]. intros _. lia.
Qed.

(** What [ok_by_robots] answers once the URL parsed: the evaluation of
    the rules when reading and evaluating them raised nothing, [True]
    otherwise. *)
Lemma ok_by_robots_eval url ua parsed (s : state World) :
  urlparse ext url = Ok parsed ->
  ok_by_robots ext url ua s =
  let '(r, w) :=
    rp_read ext (scheme parsed +:+ "://" +:+ netloc parsed +:+ "/robots.txt")
      (world s) in
  (Ok match r with
      | Ok rp =>
          match rp_can_fetch ext rp ua url with
          | Ok b => b
          | Raise _ => true
          end
      | Raise _ => true
      end, set_world w s).
Proof.
  intros Hp. unfold ok_by_robots. rewrite bind_pure, Hp.
  unfold try_except, call, mbind, M_bind, pure.
  destruct (rp_read ext _ (world s)) as [[rp|e] w]; simpl; [|reflexivity].
  destruct (rp_can_fetch ext rp ua url); reflexivity.
Qed.

(** C4. Once the URL parsed, [ok_by_robots] fails open: when reading
    robots.txt raises, or evaluating its rules raises, it returns
    [True]; when the file was read and the rules evaluate to [b], it
    returns [b]; so it returns [False] only for a robots.txt that was
    read and forbids the URL.  In all cases only the world changes. *)
Theorem ok_by_robots_fails_open url ua parsed (s : state World) :
  urlparse ext url = Ok parsed ->
  let robots_url :=
    scheme parsed +:+ "://" +:+ netloc parsed +:+ "/robots.txt" in
  (forall e w, rp_read ext robots_url (world s) = (Raise e, w) ->
               ok_by_robots ext url ua s = (Ok true, set_world w s)) /\
  (forall rp w e, rp_read ext robots_url (world s) = (Ok rp, w) ->
                  rp_can_fetch ext rp ua url = Raise e ->
                  ok_by_robots ext url ua s = (Ok true, set_world w s)) /\
  (forall rp w b, rp_read ext robots_url (world s) = (Ok rp, w) ->
                  rp_can_fetch ext rp ua url = Ok b ->
                  ok_by_robots ext url ua s = (Ok b, set_world w s)) /\
  ((ok_by_robots ext url ua s).1 = Ok false ->
   exists rp w, rp_read ext robots_url (world s) = (Ok rp, w) /\
                rp_can_fetch ext rp ua url = Ok false).
Proof.
  intros Hp robots_url. rewrite (ok_by_robots_eval url ua parsed s Hp).
  fold robots_url.
  repeat split.
  - intros e w ->. reflexivity.
  - intros rp w e -> ->. reflexivity.
  - intros rp w b -> ->. reflexivity.
  - destruct (rp_read ext robots_url (world s)) as [[rp|e] w]; simpl;
      [|discriminate].
    destruct (rp_can_fetch ext rp ua url) as [[]|e] eqn:F; try discriminate.
    intros _. eauto.
Qed.

Lemma ok_by_robots_disallowed url ua (s : state World) :
  robots_disallows ext url ua (world s) ->
  exists w, ok_by_robots ext url ua s = (Ok false, set_world w s).
Proof.
  intros (parsed & rp & w & Hp & Hr & Hc). exists w.
  rewrite (ok_by_robots_eval url ua parsed s Hp), Hr, Hc. reflexivity.
Qed.

(** C1, amended. For a URL [u] that robots.txt forbids, [process_url]
    returns normally, opens no file, and leaves [seen_hashes],
    [total_bytes] and the [SAVED] records as they were, whatever the page
    holds; [u] itself is marked: afterwards [seen_urls] is the old set
    with [u] added, the marking coming before the robots check. *)
Theorem robots_blocked_frame u (s : state World) :
  robots_disallows ext u (user_agent args) (world s) ->
  let r := process_url ext args u s in
  r.1 = Ok tt /\
  written r.2 = written s /\
  seen_hashes r.2 = seen_hashes s /\
  total_bytes r.2 = total_bytes s /\
  saved (log r.2) = saved (log s) /\
  seen_urls r.2 = {[u]} ∪ seen_urls s.
Proof.
  intros Hrob r. subst r. unfold process_url. rewrite bind_gets.
  destruct (bool_decide_reflect (u ∈ seen_urls s)) as [Hin|Hnin].
  { simpl. repeat split.
    symmetry. apply subseteq_union_1_L, singleton_subseteq_l, Hin. }
  unfold add_seen_url. rewrite bind_modify, bind_gets.
  destruct (budget_exhausted args (mark_url u s)); [simpl; tauto|].
  destruct (ok_by_robots_disallowed u (user_agent args) (mark_url u s) Hrob)
    as [w E].
  rewrite (bind_ok _ _ _ _ _ E). simpl. tauto.
Qed.

Lemma process_url_allowed u (s s1 : state World) :
  u ∉ seen_urls s -> budget_exhausted args s = false ->
  ok_by_robots ext u (user_agent args) (mark_url u s) = (Ok true, s1) ->
  process_url ext args u s =
  try_except
    (got ← acquire ext args u;
     match got with
     | None => mret tt
     | Some (title, text) => dedup_and_save ext args u title text
     end)
    (fun e => logging (ERROR u e)) s1.
Proof.
  intros Hnin B E. unfold process_url. rewrite bind_gets.
  rewrite (bool_decide_eq_false_2 _ Hnin).
  unfold add_seen_url. rewrite bind_modify, bind_gets.
  change (budget_exhausted args (mark_url u s))
    with (budget_exhausted args s).
  rewrite B, (bind_ok _ _ _ _ _ E). reflexivity.
Qed.

Lemma process_url_acquired u (s s1 s2 : state World) title text :
  u ∉ seen_urls s -> budget_exhausted args s = false ->
  ok_by_robots ext u (user_agent args) (mark_url u s) = (Ok true, s1) ->
  acquire ext args u s1 = (Ok (Some (title, text)), s2) ->
  process_url ext args u s =
  try_except (dedup_and_save ext args u title text)
    (fun e => logging (ERROR u e)) s2.
Proof.
  intros Hnin B E A. rewrite (process_url_allowed u s s1 Hnin B E).
  unfold try_except. rewrite (bind_ok _ _ _ _ _ A). reflexivity.
Qed.

Lemma process_url_rejected u (s s1 s2 : state World) :
  u ∉ seen_urls s -> budget_exhausted args s = false ->
  ok_by_robots ext u (user_agent args) (mark_url u s) = (Ok true, s1) ->
  acquire ext args u s1 = (Ok None, s2) ->
  process_url ext args u s = (Ok tt, s2).
Proof.
  intros Hnin B E A. rewrite (process_url_allowed u s s1 Hnin B E).
  unfold try_except. rewrite (bind_ok _ _ _ _ _ A). reflexivity.
Qed.

Lemma acquire_fallback u title text (s s' : state World) :
  fetch_wikipedia_plain ext u (timeout args) s = (Ok (title, text), s') ->
  falsy text = true ->
  acquire ext args u s = general_fetch ext args u s'.
Proof.
  intros F H. unfold acquire. rewrite (bind_ok _ _ _ _ _ F), H. reflexivity.
Qed.

Lemma general_fetch_nonhtml u r w (s : state World) :
  session_get ext u (timeout args) (world s) = (Ok r, w) ->
  Py.contains "text/html" (default EmptyString (content_type r)) = false ->
  general_fetch ext args u s =
  (Ok None,
   push_log (SKIP_NONHTML u (default EmptyString (content_type r)))
     (set_world w s)).
Proof.
  intros G H. unfold general_fetch.
  assert (C : call (session_get ext u (timeout args)) s
              = (Ok r, set_world w s)) by (unfold call; now rewrite G).
  rewrite (bind_ok _ _ _ _ _ C), H. reflexivity.
Qed.

Lemma general_fetch_short u r w t x (s : state World) :
  session_get ext u (timeout args) (world s) = (Ok r, w) ->
  Py.contains "text/html" (default EmptyString (content_type r)) = true ->
  extract_with_trafilatura ext u (text r) = Ok (t, x) ->
  falsy x = true \/ Z.of_nat (String.length (Py.strip (or_empty x))) < 300 ->
  general_fetch ext args u s =
  (Ok None, push_log (EXTRACTION_FAILED_SHORT u) (set_world w s)).
Proof.
  intros G H X S. unfold general_fetch.
  assert (C : call (session_get ext u (timeout args)) s
              = (Ok r, set_world w s)) by (unfold call; now rewrite G).
  rewrite (bind_ok _ _ _ _ _ C), H. simpl. rewrite bind_pure, X.
  assert (falsy x
          || (Z.of_nat (String.length (Py.strip (or_empty x))) <? 300)
          = true) as ->.
  { destruct S as [-> | S]; [reflexivity|].
    apply Z.ltb_lt in S. rewrite S. apply orb_true_r. }
  reflexivity.
Qed.

(** C5. On the general path (the fast path gave no text), with the
    page fetched: a Content-Type without [text/html] ends the call with
    the record [SKIP-NONHTML] and nothing else, whatever extraction would
    have made of the body; with [text/html], an extraction that is empty
    or whose trimmed text has fewer than 300 characters ends it with
    [EXTRACTION-FAILED/SHORT].  Both end states have the files,
    [total_bytes] and [seen_hashes] of the start. *)
Theorem general_path_rejections u (s s1 s2 : state World) wtitle wtext r w :
  u ∉ seen_urls s -> budget_exhausted args s = false ->
  ok_by_robots ext u (user_agent args) (mark_url u s) = (Ok true, s1) ->
  fetch_wikipedia_plain ext u (timeout args) s1 = (Ok (wtitle, wtext), s2) ->
  falsy wtext = true ->
  session_get ext u (timeout args) (world s2) = (Ok r, w) ->
  let ctype := default EmptyString (content_type r) in
  let rejected rec := push_log rec (set_world w s2) in
  (Py.contains "text/html" ctype = false ->
   process_url ext args u s = (Ok tt, rejected (SKIP_NONHTML u ctype))) /\
  (Py.contains "text/html" ctype = true ->
   forall t x,
     extract_with_trafilatura ext u (text r) = Ok (t, x) ->
     falsy x = true \/
     Z.of_nat (String.length (Py.strip (or_empty x))) < 300 ->
     process_url ext args u s =
     (Ok tt, rejected (EXTRACTION_FAILED_SHORT u))) /\
  (forall rec,
     written (rejected rec) = written s /\
     total_bytes (rejected rec) = total_bytes s /\
     seen_hashes (rejected rec) = seen_hashes s).
Proof.
  intros Hnin B E F Hf G ctype rejected.
  pose proof (acquire_fallback u wtitle wtext s1 s2 F Hf) as A.
  split; [|split].
  - intros H. apply (process_url_rejected u s s1 _ Hnin B E).
    rewrite A. apply general_fetch_nonhtml; assumption.
  - intros H t x X S. apply (process_url_rejected u s s1 _ Hnin B E).
    rewrite A. apply (general_fetch_short u r w t x); assumption.
  - intros rec.
    pose proof (ok_by_robots_quiet ext u (user_agent args) (mark_url u s))
      as Q1. rewrite E in Q1.
    pose proof (fetch_wikipedia_plain_quiet ext u (timeout args) s1) as Q2.
    rewrite F in Q2.
    destruct Q1 as (A1 & A2 & _ & A4 & _), Q2 as (B1 & B2 & _ & B4 & _).
    simpl in *. repeat split; congruence.
Qed.


(** The fast path only hands back a text that is not blank. *)
Lemma fetch_wikipedia_plain_text u t title x (s s' : state World) :
  fetch_wikipedia_plain ext u t s = (Ok (title, Some x), s') ->
  Py.truthy (Py.strip x) = true.
Proof.
  unfold fetch_wikipedia_plain. rewrite bind_pure.
  destruct (urlparse ext u) as [parsed|e]; [|discriminate].
  destruct (negb _ || negb _); [discriminate|].
  unfold mbind at 1, M_bind at 1.
  destruct (call _ s) as [[r|e] s1]; [|discriminate].
  destruct (negb (status_code r =? 200)) eqn:Hs; [discriminate|]. simpl.
  destruct (Py.truthy (Py.strip (text r))) eqn:Ht; [|discriminate]. simpl.
  unfold mbind, M_bind.
  destruct (try_except _ _ s1) as [[d|e] s2]; [|discriminate].
  intros [= _ <- _]. exact Ht.
Qed.


Lemma dedup_and_save_duplicate u title x (s : state World) :
  sha1_hex (Py.strip x) ∈ seen_hashes s ->
  dedup_and_save ext args u title x s = (Ok tt, push_log (DUPLICATE u) s).
Proof.
  intros H. unfold dedup_and_save. rewrite bind_gets.
  rewrite (bool_decide_eq_true_2 _ H). reflexivity.
Qed.

(** A fresh fingerprint is marked and the file is opened; how the call
    ends depends on the write. *)
Lemma dedup_and_save_fresh u title x slug (s : state World) :
  sha1_hex (Py.strip x) ∉ seen_hashes s ->
  slugify ext u = Ok slug ->
  let content := save_content u title x (strftime ext (world s)) in
  let entry := mkWrite u (out args) (slug +:+ ".txt") content in
  let added := Z.of_nat (List.length (Py.encode_utf8 content)) in
  dedup_and_save ext args u title x s =
  match write_file ext (out args) (slug +:+ ".txt") content (world s) with
  | (Ok _, w) =>
      (Ok tt,
       push_log (SAVED u added (total_bytes s + added))
         (add_bytes added
            (push_write (entry true)
               (set_world w (mark_hash (sha1_hex (Py.strip x)) s)))))
  | (Raise e, w) =>
      (Raise e,
       push_write (entry false)
         (set_world w (mark_hash (sha1_hex (Py.strip x)) s)))
  end.
Proof.
  intros H Hs content entry added. unfold dedup_and_save.
  rewrite bind_gets, (bool_decide_eq_false_2 _ H).
  unfold add_seen_hash. rewrite bind_modify.
  unfold save_txt. rewrite bind_bind, bind_pure, Hs, bind_bind, bind_gets.
  unfold mbind, M_bind, write_out. simpl. fold content.
  destruct (write_file ext (out args) (slug +:+ ".txt") content (world s))
    as [[[]|e] w]; reflexivity.
Qed.


Lemma ok_by_robots_parsed u ua b (s s1 : state World) :
  ok_by_robots ext u ua s = (Ok b, s1) ->
  exists parsed, urlparse ext u = Ok parsed.
Proof.
  unfold ok_by_robots. rewrite bind_pure.
  destruct (urlparse ext u) as [parsed|e]; [eauto | discriminate].
Qed.

Lemma slugify_parsed u parsed :
  urlparse ext u = Ok parsed ->
  slugify ext u
  = Ok (slug_base parsed +:+ "-" +:+ Py.take 8 (sha1_hex u)).
Proof. intros H. unfold slugify. rewrite H. reflexivity. Qed.


(** C8, amended. The file name is the sanitized host and path, a dash
    and the first eight hexadecimal digits of the SHA-1 of the URL.  Two
    URLs get the same name exactly when they agree on both parts; the
    name is not injective. *)
Theorem slugify_collides_iff u1 u2 p1 p2 :
  urlparse ext u1 = Ok p1 -> urlparse ext u2 = Ok p2 ->
  slugify ext u1
  = Ok (slug_base p1 +:+ "-" +:+ Py.take 8 (sha1_hex u1)) /\
  (slugify ext u1 = slugify ext u2 <->
   slug_base p1 = slug_base p2 /\
   Py.take 8 (sha1_hex u1) = Py.take 8 (sha1_hex u2)).
Proof.
  intros H1 H2. rewrite (slugify_parsed u1 p1 H1), (slugify_parsed u2 p2 H2).
  split; [reflexivity|]. split.
  - intros [= H].
    apply append_inj_same_length in H as [Hb Hh].
    + split; [exact Hb|].
      change (String "-" (Py.take 8 (sha1_hex u1))
              = String "-" (Py.take 8 (sha1_hex u2))) in Hh.
      congruence.
    + reflexivity.
  - intros [-> ->]. reflexivity.
Qed.

Lemma slice_to_clamped {A} (links : list A) :
  max_follow args < 0 ->
  Py.slice_to (Z.max 0 (max_follow args)) links = [].
Proof.
  intros H. rewrite Z.max_l by lia. reflexivity.
Qed.

Lemma expand_seed_quiet_negative seed :
  max_follow args < 0 -> keeps quiet (expand_seed ext args seed).
Proof.
  intros H.
  apply (expand_seed_keeps ext args quiet (fun s s' Q => Q)
           (fun _ => False)).
  - intros u s s' [].
  - intros links. rewrite slice_to_clamped by exact H. constructor.
Qed.

Lemma seed_loop_visits_seeds seeds :
  max_follow args < 0 ->
  keeps (visited_among seeds) (seed_loop ext args seeds).
Proof.
  intros H.
  apply (seed_loop_keeps ext args (visited_among seeds))
    with (P := fun u => u ∈ seeds).
  - intros s s' (_ & _ & Q & _) u Hu. left. rewrite <- Q. exact Hu.
  - intros u s s' Hu (U & _) v Hv. rewrite U in Hv.
    apply elem_of_union in Hv as [Hv|Hv]; [|left; exact Hv].
    apply elem_of_singleton in Hv as ->. right. exact Hu.
  - intros links. rewrite slice_to_clamped by exact H. constructor.
  - apply Forall_forall. auto.
Qed.

(** C9. With a negative [max_follow] the slice of links to follow is
    empty, whatever the links; expanding a seed then marks, counts and
    writes nothing; and a run of the seed loop marks no URL besides the
    seeds.  The unclamped slice [links[:max_follow]] would have kept all
    but the last [|max_follow|] links. *)
Theorem negative_max_follow_follows_nothing :
  max_follow args < 0 ->
  (forall links : list string,
      Py.slice_to (Z.max 0 (max_follow args)) links = []) /\
  (forall seed (s : state World),
      quiet s (expand_seed ext args seed s).2) /\
  (forall seeds (s : state World) u,
      u ∈ seen_urls (seed_loop ext args seeds s).2 ->
      u ∈ seen_urls s \/ u ∈ seeds) /\
  (forall links : list string,
      Py.slice_to (max_follow args) links
      = firstn (List.length links - Z.to_nat (- max_follow args)) links).
Proof.
  intros H. split; [intros links; apply slice_to_clamped, H|].
  split; [intros seed; apply expand_seed_quiet_negative, H|].
  split; [intros seeds s; apply (seed_loop_visits_seeds seeds H s)|].
  intros links. unfold Py.slice_to.
  destruct (Z.ltb_spec (max_follow args) 0) as [_|]; [|lia].
  f_equal. lia.
Qed.

Lemma collect_loop_spec base_url base_domain sd hrefs :
  forall links result,
    collect_loop ext base_url base_domain sd hrefs links = Ok result ->
    forall u, u ∈ result <->
              u ∈ links \/
              exists a, a ∈ hrefs /\ link_of ext base_url base_domain sd a u.
Proof.
  induction hrefs as [|a rest IH]; intros links result H u.
  - injection H as <-. split; [auto|].
    intros [Hu | (a & Ha & _)]; [exact Hu|]. inversion Ha.
  - simpl in H.
    assert (Hrest : forall links',
               collect_loop ext base_url base_domain sd rest links'
               = Ok result ->
               (u ∈ links' <-> u ∈ links \/
                               link_of ext base_url base_domain sd a u) ->
               u ∈ result <->
               u ∈ links \/
               exists a', a' ∈ a :: rest /\
                          link_of ext base_url base_domain sd a' u).
    { intros links' H' Hl. rewrite (IH links' result H' u), Hl. split.
      - intros [[Hu | Hu] | (a' & Ha' & Hu)]; [auto | right | right].
        + exists a. split; [constructor | exact Hu].
        + exists a'. split; [constructor; exact Ha' | exact Hu].
      - intros [Hu | (a' & Ha' & Hu)]; [auto|].
        apply elem_of_cons in Ha' as [-> | Ha']; [auto|].
        right. exists a'. auto. }
    destruct (Py.startswith (Py.strip a) "#"
              || Py.startswith (Py.strip a) "mailto:"
              || Py.startswith (Py.strip a) "javascript:") eqn:D.
    { apply (Hrest links H). split; [auto|].
      intros [Hu | (L1 & L2 & L3 & _)]; [exact Hu|].
      rewrite L1, L2, L3 in D. discriminate. }
    apply orb_false_elim in D as [D D3].
    apply orb_false_elim in D as [D1 D2].
    unfold mbind, result_bind in H.
    destruct (urljoin ext base_url (Py.strip a)) as [abs|e] eqn:J;
      [|discriminate].
    destruct sd.
    + destruct (urlparse ext abs) as [p|e] eqn:U; [|discriminate].
      simpl in H.
      destruct (String.eqb_spec (netloc p) base_domain) as [Hd|Hd];
        simpl in H.
      * apply (Hrest _ H). rewrite elem_of_union, elem_of_singleton.
        split.
        -- intros [-> | Hu]; [right | auto].
           repeat split; try assumption. intros _. eauto.
        -- intros [Hu | (_ & _ & _ & Hj & _)]; [auto|].
           left. congruence.
      * apply (Hrest _ H). split; [auto|].
        intros [Hu | (_ & _ & _ & Hj & Hp)]; [exact Hu|].
        destruct (Hp eq_refl) as (p' & Hp' & Hn).
        congruence.
    + simpl in H. apply (Hrest _ H).
      rewrite elem_of_union, elem_of_singleton. split.
      * intros [-> | Hu]; [right | auto].
        repeat split; try assumption. discriminate.
      * intros [Hu | (_ & _ & _ & Hj & _)]; [auto|].
        left. congruence.
Qed.

Lemma collect_loop_returns base_url base_domain sd hrefs :
  (forall u, exists p, urlparse ext u = Ok p) ->
  (forall b h, exists u, urljoin ext b h = Ok u) ->
  forall links, exists result,
    collect_loop ext base_url base_domain sd hrefs links = Ok result.
Proof.
  intros Hp Hj. induction hrefs as [|a rest IH]; intros links; simpl.
  - eauto.
  - destruct (_ || _); [apply IH|].
    destruct (Hj base_url (Py.strip a)) as [abs ->].
    unfold mbind, result_bind. destruct sd.
    + destruct (Hp abs) as [p ->]. simpl.
      destruct (negb _); apply IH.
    + simpl. apply IH.
Qed.

(** C7, amended. When [collect_links] returns, the list has no
    duplicates and holds exactly the URLs made from an anchor of the
    markup: the href trimmed, not starting with [#], [mailto:] or
    [javascript:], joined to the base URL, and, with [same_domain], with
    the netloc of the base URL (the scheme is not compared).  It returns
    whenever URL parsing and joining raise nothing. *)
Theorem collect_links_spec base_url html sd :
  (forall links,
      collect_links ext base_url html sd = Ok links ->
      exists base,
        urlparse ext base_url = Ok base /\
        NoDup links /\
        forall u, u ∈ links <->
                  exists a, a ∈ find_all_a_href ext html /\
                            link_of ext base_url (netloc base) sd a u) /\
  ((forall u, exists p, urlparse ext u = Ok p) ->
   (forall b h, exists u, urljoin ext b h = Ok u) ->
   exists links, collect_links ext base_url html sd = Ok links).
Proof.
  unfold collect_links, mbind, result_bind. split.
  - intros links H.
    destruct (urlparse ext base_url) as [base|e]; [|discriminate].
    destruct (collect_loop ext base_url (netloc base) sd
                (find_all_a_href ext html) ∅) as [set|e] eqn:L;
      [|discriminate].
    injection H as <-. exists base. split; [reflexivity|].
    split; [apply NoDup_elements|].
    intros u. rewrite elem_of_elements, (collect_loop_spec _ _ _ _ _ _ L u).
    split; [intros [H|H]; [|exact H] | auto].
    exfalso. revert H. apply not_elem_of_empty.
  - intros Hp Hj. destruct (Hp base_url) as [base ->].
    destruct (collect_loop_returns base_url (netloc base) sd
                (find_all_a_href ext html) Hp Hj ∅) as [set ->].
    eauto.
Qed.

End Claims.

(** ** The claims on the small world *)

(** Decides a closed decidable proposition by evaluation. *)
Ltac by_eval :=
  match goal with
  | |- ?P => apply (bool_decide_unpack P); vm_compute; exact I
  end.

(** The robots.txt of [blocked.example] forbids the page, in any world. *)
Lemma blocked_is_disallowed (w : Demo.World) :
  robots_disallows Demo.ext Demo.blocked Demo.ua w.
Proof.
  exists (mkParseResult "http" "blocked.example" "/secret" EmptyString
            EmptyString EmptyString), false,
         ("http://blocked.example/robots.txt" :: w).
  repeat split.
Qed.

(** C1 as stated fails: the forbidden page is marked visited, so
    [seen_urls] is not what it was. *)
Lemma robots_blocked_marks_visited :
  robots_disallows Demo.ext Demo.blocked Demo.ua (world (initial (World:=Demo.World) [])) /\
  seen_urls (process_url Demo.ext Demo.args Demo.blocked (initial [])).2
  <> seen_urls (initial (World:=Demo.World) []).
Proof.
  split; [apply blocked_is_disallowed|].
  intros H.
  assert (Hin : Demo.blocked ∈ seen_urls (process_url Demo.ext Demo.args Demo.blocked (initial [])).2)
    by by_eval.
  rewrite H in Hin. revert Hin. apply not_elem_of_empty.
Qed.

(** C1, amended, on the forbidden page from the initial state. *)
Lemma robots_blocked_frame_witness :
  let r := process_url Demo.ext Demo.args Demo.blocked (initial []) in
  r.1 = Ok tt /\ written r.2 = [] /\ seen_hashes r.2 = ∅ /\
  total_bytes r.2 = 0 /\ saved (log r.2) = [] /\
  seen_urls r.2 = {[Demo.blocked]} ∪ ∅.
Proof.
  apply (robots_blocked_frame Demo.ext Demo.args Demo.blocked (initial [])).
  exists (mkParseResult "http" "blocked.example" "/secret" EmptyString
            EmptyString EmptyString), false,
         ["http://blocked.example/robots.txt"].
  repeat split.
Defined.

(** C2 as stated fails: with a budget of -1000000 nothing is processed and
    [total_bytes] stays 0, above the budget plus the 414 bytes of the only
    page among the seeds (and above the budget plus the page accepted
    last, there being none). *)
Lemma negative_budget_total_above :
  let s := (run Demo.ext Demo.negative_budget []).2 in
  total_bytes s = 0 /\ written s = [] /\ last_page (log s) = 0 /\
  total_bytes (run Demo.ext Demo.args []).2 = 414 /\
  ~ total_bytes s <= max_total_bytes Demo.negative_budget + last_page (log s) /\
  ~ total_bytes s <= max_total_bytes Demo.negative_budget + 414.
Proof.
  vm_compute. repeat split; try reflexivity; intros H; apply H; reflexivity.
Qed.

(** C2, amended, with a budget of 100: the page of 414 bytes is accepted
    and is the overshoot. *)
Lemma total_bytes_within_budget_witness :
  let s := (run Demo.ext Demo.small_budget []).2 in
  total_bytes s = 414 /\ last_page (log s) = 414 /\
  total_bytes s <= max_total_bytes Demo.small_budget + last_page (log s).
Proof.
  split; [vm_compute; reflexivity|]. split; [vm_compute; reflexivity|].
  apply (proj1 (total_bytes_within_budget Demo.ext Demo.small_budget) []).
  vm_compute. discriminate.
Defined.

(** C3 on the seeds file that lists one page twice. *)
Lemma process_url_at_most_once_witness :
  let s1 := (process_url Demo.ext Demo.args Demo.page_a (initial [])).2 in
  total_bytes s1 = 414 /\
  process_url Demo.ext Demo.args Demo.page_a s1 = (Ok tt, s1) /\
  writes_for Demo.page_a (written (run Demo.ext Demo.args []).2) = 1%nat.
Proof.
  split; [vm_compute; reflexivity|]. split.
  - apply (proj1 (process_url_at_most_once Demo.ext Demo.args)).
    apply (proj1 (proj2 (process_url_at_most_once Demo.ext Demo.args))).
  - vm_compute. reflexivity.
Defined.

(** C4 on the host whose robots.txt cannot be read. *)
Lemma ok_by_robots_fails_open_witness :
  ok_by_robots Demo.ext Demo.down Demo.ua (initial [])
  = (Ok true, set_world ["http://down.example/robots.txt"] (initial [])).
Proof.
  apply (proj1 (ok_by_robots_fails_open Demo.ext Demo.down Demo.ua
                  (mkParseResult "http" "down.example" "/page" EmptyString
                     EmptyString EmptyString) (initial []) eq_refl)
           "URLError").
  reflexivity.
Defined.

(** C5 on the PDF and on the short page. *)
Lemma general_path_rejections_witness :
  process_url Demo.ext Demo.args Demo.pdf (initial [])
  = (Ok tt,
     push_log (SKIP_NONHTML Demo.pdf "application/pdf")
       (set_world [Demo.pdf; "http://example.com/robots.txt"]
          (mark_url Demo.pdf (initial [])))) /\
  process_url Demo.ext Demo.args Demo.stub (initial [])
  = (Ok tt,
     push_log (EXTRACTION_FAILED_SHORT Demo.stub)
       (set_world [Demo.stub; "http://example.com/robots.txt"]
          (mark_url Demo.stub (initial [])))).
Proof.
  split.
  - refine (proj1 (general_path_rejections Demo.ext Demo.args Demo.pdf
              (initial [])
              (set_world ["http://example.com/robots.txt"]
                 (mark_url Demo.pdf (initial [])))
              (set_world ["http://example.com/robots.txt"]
                 (mark_url Demo.pdf (initial [])))
              None None
              (mkResponse 200 true (Some "application/pdf") "%PDF-1.4"
                 (Raise "JSONDecodeError"))
              [Demo.pdf; "http://example.com/robots.txt"]
              _ eq_refl eq_refl eq_refl eq_refl eq_refl) eq_refl).
    apply not_elem_of_empty.
  - refine (proj1 (proj2 (general_path_rejections Demo.ext Demo.args Demo.stub
              (initial [])
              (set_world ["http://example.com/robots.txt"]
                 (mark_url Demo.stub (initial [])))
              (set_world ["http://example.com/robots.txt"]
                 (mark_url Demo.stub (initial [])))
              None None
              (Demo.html "Too short to keep.")
              [Demo.stub; "http://example.com/robots.txt"]
              _ eq_refl eq_refl eq_refl eq_refl eq_refl)) eq_refl
              None (Some "Too short to keep.") eq_refl _).
    + apply not_elem_of_empty.
    + right. vm_compute. reflexivity.
Defined.



(** C7 as stated fails: with [same_domain] the link to the same host under
    [https] is kept, though its origin is not the one of the base URL. *)
Lemma same_domain_keeps_other_scheme :
  exists links base p,
    collect_links Demo.ext Demo.index Demo.index_markup true = Ok links /\
    Demo.secure_link ∈ links /\
    urlparse Demo.ext Demo.index = Ok base /\
    urlparse Demo.ext Demo.secure_link = Ok p /\
    origin p <> origin base.
Proof.
  exists [Demo.secure_link; "http://example.com/mirror"; "http://example.com/a"],
    (mkParseResult "http" "example.com" "/" EmptyString EmptyString
       EmptyString),
    (mkParseResult "https" "example.com" "/x" EmptyString EmptyString
       EmptyString).
  split; [vm_compute; reflexivity|].
  split; [constructor|].
  split; [reflexivity|]. split; [reflexivity|]. discriminate.
Qed.

(** C7, amended, on the page with the links. *)
Lemma collect_links_spec_witness :
  exists base,
    urlparse Demo.ext Demo.index = Ok base /\
    NoDup [Demo.secure_link; "http://example.com/mirror"; "http://example.com/a"]
    /\
    forall u,
      u ∈ [Demo.secure_link; "http://example.com/mirror"; "http://example.com/a"]
      <->
      exists a, a ∈ find_all_a_href Demo.ext Demo.index_markup /\
                link_of Demo.ext Demo.index (netloc base) true a u.
Proof.
  apply (proj1 (collect_links_spec Demo.ext Demo.index Demo.index_markup true)).
  vm_compute. reflexivity.
Defined.

(** C8 as stated fails: two URLs that differ in the query have the same
    host and path and the same first eight digits of SHA-1, hence the same
    file name. *)
Lemma slugify_not_injective :
  Demo.collide_1 <> Demo.collide_2 /\
  slugify Demo.ext Demo.collide_1 = Ok "example.com-a-f5ff1fae" /\
  slugify Demo.ext Demo.collide_2 = Ok "example.com-a-f5ff1fae".
Proof.
  split; [discriminate|]. split; vm_compute; reflexivity.
Qed.

(** C8, amended, on a page and its mirror. *)
Lemma slugify_collides_iff_witness :
  slugify Demo.ext Demo.page_a = Ok "example.com-a-555abfee" /\
  slugify Demo.ext Demo.page_a <> slugify Demo.ext Demo.mirror.
Proof.
  destruct (slugify_collides_iff Demo.ext Demo.page_a Demo.mirror
              (mkParseResult "http" "example.com" "/a" EmptyString
                 EmptyString EmptyString)
              (mkParseResult "http" "example.com" "/mirror" EmptyString
                 EmptyString EmptyString) eq_refl eq_refl) as [H1 H2].
  split.
  - rewrite H1. vm_compute. reflexivity.
  - intros H. apply H2 in H as [H _]. vm_compute in H. discriminate.
Defined.

(** C9 with [--max-follow -2] on the page with three links: none is
    followed, where [--max-follow 2] follows two. *)
Lemma negative_max_follow_follows_nothing_witness :
  Py.slice_to (Z.max 0 (max_follow (Demo.crawl_index (-2))))
    [Demo.page_a; Demo.mirror; Demo.secure_link] = [] /\
  Py.slice_to (max_follow (Demo.crawl_index (-2)))
    [Demo.page_a; Demo.mirror; Demo.secure_link] = [Demo.page_a] /\
  elements (seen_urls (run Demo.ext (Demo.crawl_index (-2)) []).2)
  = [Demo.index] /\
  elements (seen_urls (run Demo.ext (Demo.crawl_index 2) []).2)
  = [Demo.mirror; Demo.page_a; Demo.index].
Proof.
  assert (H : max_follow (Demo.crawl_index (-2)) < 0) by reflexivity.
  destruct (negative_max_follow_follows_nothing Demo.ext
              (Demo.crawl_index (-2)) H) as (H1 & _ & _ & H4).
  split; [apply H1|]. split; [rewrite H4; reflexivity|].
  split; vm_compute; reflexivity.
Defined.

(** * Further properties of the script *)

(** ** Strings: trimming, safe names, UTF-8 *)

Section Strip.

Variable p : ascii -> bool.

Lemma rstrip_by_idem s : Py.rstrip_by p (Py.rstrip_by p s) = Py.rstrip_by p s.
Proof.
  induction s as [|c s IH]; [reflexivity|]. simpl.
  destruct (Py.rstrip_by p s) as [|c' r] eqn:E.
  - destruct (p c) eqn:Hc; simpl; [reflexivity|]. now rewrite Hc.
  - simpl. simpl in IH. rewrite IH. reflexivity.
Qed.

Lemma lstrip_by_head s :
  Py.lstrip_by p s = EmptyString \/
  exists c r, Py.lstrip_by p s = String c r /\ p c = false.
Proof.
  induction s as [|c s IH]; [left; reflexivity|]. simpl.
  destruct (p c) eqn:Hc; [exact IH|]. right. eauto.
Qed.

Lemma lstrip_by_rstrip_by c s :
  p c = false ->
  Py.lstrip_by p (Py.rstrip_by p (String c s)) = Py.rstrip_by p (String c s).
Proof.
  intros Hc. simpl.
  destruct (Py.rstrip_by p s); rewrite ?Hc; simpl; now rewrite Hc.
Qed.

Lemma strip_by_idem s : Py.strip_by p (Py.strip_by p s) = Py.strip_by p s.
Proof.
  unfold Py.strip_by.
  destruct (lstrip_by_head s) as [-> | (c & r & -> & Hc)]; [reflexivity|].
  rewrite (lstrip_by_rstrip_by c r Hc). apply rstrip_by_idem.
Qed.

End Strip.

Lemma all_chars_app q a b :
  Urllib.all_chars q (a +:+ b) = Urllib.all_chars q a && Urllib.all_chars q b.
Proof.
  induction a as [|c a IH]; [reflexivity|].
  change (q c && Urllib.all_chars q (a +:+ b)
          = q c && Urllib.all_chars q a && Urllib.all_chars q b).
  rewrite IH. apply andb_assoc.
Qed.

Lemma sub_runs_safe b s : safe_name (Py.sub_runs b s) = true.
Proof.
  unfold safe_name. revert b. induction s as [|c s IH]; intros b; [reflexivity|].
  simpl. destruct (Py.slug_char c) eqn:Hc; simpl.
  - now rewrite Hc, IH.
  - destruct b; [apply IH|]. simpl. apply IH.
Qed.

Lemma slug_base_safe parsed : safe_name (slug_base parsed) = true.
Proof.
  unfold slug_base.
  destruct (Py.truthy _); [apply sub_runs_safe | reflexivity].
Qed.

Lemma slug_base_not_empty parsed : Py.truthy (slug_base parsed) = true.
Proof.
  unfold slug_base.
  destruct (Py.truthy (Py.re_sub_slug _)) eqn:E; [exact E | reflexivity].
Qed.

Lemma hex_digit_safe x i :
  Py.slug_char (SHA1.hex_digit (Z.land (Z.shiftr x i) 15)) = true.
Proof.
  change 15 with (Z.ones 4). rewrite Z.land_ones by lia.
  pose proof (Z.mod_pos_bound (Z.shiftr x i) (2 ^ 4) ltac:(lia)) as B.
  set (n := Z.shiftr x i mod 2 ^ 4) in *.
  assert (T : forallb (fun k => Py.slug_char (SHA1.hex_digit (Z.of_nat k)))
                (seq 0 16) = true) by reflexivity.
  rewrite forallb_forall in T. specialize (T (Z.to_nat n)).
  rewrite Z2Nat.id in T by lia. apply T, in_seq. lia.
Qed.

Lemma sha1_prefix_safe u : safe_name (Py.take 8 (sha1_hex u)) = true.
Proof.
  unfold safe_name, sha1_hex, SHA1.hexdigest.
  set (r := SHA1.digest _). unfold SHA1.hex_word at 1. cbn [Py.take Urllib.all_chars].
  rewrite !hex_digit_safe. reflexivity.
Qed.

Lemma safe_name_no_slash s : safe_name s = true -> Py.contains "/" s = false.
Proof.
  unfold safe_name. induction s as [|c s IH]; [reflexivity|].
  intros [Hc Hs]%andb_true_iff.
  change (Py.contains "/" (String c s))
    with ((if ascii_dec "/" c then String.prefix EmptyString s else false)
          || Py.contains "/" s).
  rewrite (IH Hs), orb_false_r.
  destruct (ascii_dec "/" c) as [<-|]; [discriminate | reflexivity].
Qed.

Section Names.

Context {World : Type}.
Variable ext : Externals World.

(** X1. Whatever the URL, the name [slugify] returns is made of letters,
    digits, [-], [_] and [.] only, so it holds no [/] and names a file
    of the output directory itself; it is a fragment that is not empty,
    a dash and the first eight hex digits of the SHA-1 of the URL, ten
    characters at least. *)
Theorem slugify_safe_name u name :
  slugify ext u = Ok name ->
  safe_name name = true /\
  Py.contains "/" name = false /\
  (10 <= String.length name)%nat /\
  exists base,
    Py.truthy base = true /\
    name = base +:+ "-" +:+ Py.take 8 (sha1_hex u).
Proof.
  unfold slugify, mbind, result_bind.
  destruct (urlparse ext u) as [parsed|e]; [|discriminate].
  intros [= <-].
  assert (S : safe_name (slug_base parsed +:+ "-" +:+ Py.take 8 (sha1_hex u))
              = true).
  { unfold safe_name. rewrite !all_chars_app.
    fold (safe_name (slug_base parsed)).
    fold (safe_name (Py.take 8 (sha1_hex u))).
    now rewrite slug_base_safe, sha1_prefix_safe. }
  split; [exact S|]. split; [apply safe_name_no_slash, S|]. split.
  - rewrite length_append.
    change (String.length ("-" +:+ Py.take 8 (sha1_hex u))) with 9%nat.
    pose proof (slug_base_not_empty parsed) as N.
    destruct (slug_base parsed); [discriminate|]. simpl. lia.
  - exists (slug_base parsed). split; [apply slug_base_not_empty | reflexivity].
Qed.

Lemma read_seeds_members path (s s' : state World) seeds :
  read_seeds ext path s = (Ok seeds, s') ->
  exists lines w,
    read_lines ext path (world s) = (Ok lines, w) /\
    s' = set_world w s /\
    (forall seed, seed ∈ seeds <->
                  exists ln, ln ∈ lines /\ skipped_line ln = false /\
                             seed = Py.strip ln) /\
    (List.length seeds <= List.length lines)%nat.
Proof.
  unfold read_seeds, call, mbind, M_bind.
  destruct (read_lines ext path (world s)) as [[lines|e] w]; [|discriminate].
  intros [= <- <-].
  assert (K : forall ln,
             Is_true (Py.truthy (Py.strip ln)
                      && negb (Py.startswith (Py.strip ln) "#"))
             <-> skipped_line ln = false).
  { intros ln. unfold skipped_line.
    destruct (Py.truthy (Py.strip ln)), (Py.startswith (Py.strip ln) "#");
      simpl; intuition discriminate. }
  exists lines, w. split; [reflexivity|]. split; [reflexivity|]. split.
  - intros seed. rewrite list_elem_of_fmap. split.
    + intros (ln & -> & Hln). apply list_elem_of_filter in Hln as [Hk Hl].
      exists ln. split; [exact Hl|]. split; [apply K, Hk | reflexivity].
    + intros (ln & Hl & Hk & ->). exists ln. split; [reflexivity|].
      apply list_elem_of_filter. split; [apply K, Hk | exact Hl].
  - rewrite length_fmap. apply length_filter.
Qed.

(** X2. [read_seeds] returns the trimmed lines of the file that are
    neither blank nor comments, and nothing else: every seed is not
    empty, has no blank at either end and does not start with [#]; a
    string is a seed exactly when it is the trimmed form of such a line;
    there are no more seeds than lines.  The file is read and nothing
    else is touched. *)
Theorem read_seeds_clean path (s s' : state World) seeds :
  read_seeds ext path s = (Ok seeds, s') ->
  Forall (fun seed => Py.truthy seed = true /\
                      Py.strip seed = seed /\
                      Py.startswith seed "#" = false) seeds /\
  exists lines w,
    read_lines ext path (world s) = (Ok lines, w) /\
    s' = set_world w s /\
    (forall seed, seed ∈ seeds <->
                  exists ln, ln ∈ lines /\ skipped_line ln = false /\
                             seed = Py.strip ln) /\
    (List.length seeds <= List.length lines)%nat.
Proof.
  intros H. pose proof (read_seeds_members path s s' seeds H) as M.
  split; [|exact M].
  destruct M as (lines & w & _ & _ & Hm & _).
  apply Forall_forall. intros seed Hin.
  apply Hm in Hin as (ln & _ & Hk & ->).
  unfold skipped_line in Hk.
  apply orb_false_elim in Hk as [H1 H2]. apply negb_false_iff in H1.
  split; [exact H1|]. split; [apply strip_by_idem | exact H2].
Qed.

Lemma read_seeds_all_skipped path (s : state World) lines w :
  read_lines ext path (world s) = (Ok lines, w) ->
  Forall (fun ln => skipped_line ln = true) lines ->
  read_seeds ext path s = (Ok [], set_world w s).
Proof.
  intros R H. unfold read_seeds, call, mbind, M_bind. rewrite R. simpl.
  assert (E : filter (fun ln => Is_true (Py.truthy (Py.strip ln)
                       && negb (Py.startswith (Py.strip ln) "#"))) lines = []).
  { clear R. induction H as [|ln rest Hln _ IH]; [reflexivity|].
    rewrite filter_cons_False; [exact IH|].
    unfold skipped_line in Hln.
    destruct (Py.truthy (Py.strip ln)), (Py.startswith (Py.strip ln) "#");
      simpl in *; try discriminate; tauto. }
  unfold mret, M_ret. simpl. unfold fmap. now rewrite E.
Qed.

End Names.

(** ** Which exceptions leave [process_url], the expansion and [main] *)

Section Errors.

Context {World : Type}.
Variable ext : Externals World.
Variable args : Args.

Lemma try_logging_returns (m : M (state World) unit) r s :
  (try_except m (fun e => logging (r e)) s).1 = Ok tt.
Proof. unfold try_except. destruct (m s) as [[[]|e] s1]; reflexivity. Qed.

Lemma ok_by_robots_returns u ua parsed (s : state World) :
  urlparse ext u = Ok parsed ->
  exists b, (ok_by_robots ext u ua s).1 = Ok b.
Proof.
  intros Hp. rewrite (ok_by_robots_eval ext u ua parsed s Hp).
  destruct (rp_read ext _ (world s)) as [r w]. simpl. eauto.
Qed.

Lemma ok_by_robots_raises u ua e (s : state World) :
  urlparse ext u = Raise e -> ok_by_robots ext u ua s = (Raise e, s).
Proof. intros Hp. unfold ok_by_robots. now rewrite bind_pure, Hp. Qed.

Lemma process_url_raises u e (s : state World) :
  u ∉ seen_urls s -> budget_exhausted args s = false ->
  urlparse ext u = Raise e ->
  process_url ext args u s = (Raise e, mark_url u s).
Proof.
  intros Hn B Hp. unfold process_url. rewrite bind_gets.
  rewrite (bool_decide_eq_false_2 _ Hn).
  unfold add_seen_url. rewrite bind_modify, bind_gets.
  change (budget_exhausted args (mark_url u s))
    with (budget_exhausted args s).
  rewrite B.
  rewrite (bind_raise _ _ _ _ _
             (ok_by_robots_raises u (user_agent args) e (mark_url u s) Hp)).
  reflexivity.
Qed.

Lemma process_url_returns u parsed (s : state World) :
  urlparse ext u = Ok parsed -> (process_url ext args u s).1 = Ok tt.
Proof.
  intros Hp. unfold process_url. rewrite bind_gets.
  destruct (bool_decide (u ∈ seen_urls s)); [reflexivity|].
  unfold add_seen_url. rewrite bind_modify, bind_gets.
  destruct (budget_exhausted args (mark_url u s)); [reflexivity|].
  destruct (ok_by_robots_returns u (user_agent args) parsed (mark_url u s) Hp)
    as [b Hb].
  destruct (ok_by_robots ext u (user_agent args) (mark_url u s))
    as [r s1] eqn:E. simpl in Hb. subst r.
  rewrite (bind_ok _ _ _ _ _ E).
  destruct b; simpl; [apply try_logging_returns | reflexivity].
Qed.

(** X3. [process_url] returns normally when the URL is already marked,
    when the budget is exhausted, or when the URL parses: whatever is
    raised while fetching, extracting or saving is caught and logged.
    The one exception that leaves it comes from [urlparse] in
    [ok_by_robots], which lies before the [try]: for a new URL that does
    not parse, with the budget open, [process_url] raises, having marked
    the URL and done nothing else. *)
Theorem process_url_contains_errors u (s : state World) :
  (u ∈ seen_urls s \/ budget_exhausted args s = true \/
   (exists parsed, urlparse ext u = Ok parsed) ->
   (process_url ext args u s).1 = Ok tt) /\
  (forall e,
      u ∉ seen_urls s -> budget_exhausted args s = false ->
      urlparse ext u = Raise e ->
      process_url ext args u s = (Raise e, mark_url u s)).
Proof.
  split.
  - intros [H | [H | [parsed Hp]]].
    + now rewrite (process_url_visited ext args u s H).
    + destruct (decide (u ∈ seen_urls s)) as [V|V].
      * now rewrite (process_url_visited ext args u s V).
      * now rewrite (process_url_exhausted ext args u s V H).
    + apply (process_url_returns u parsed s Hp).
  - intros e. apply process_url_raises.
Qed.

(** X4. A seed that does not parse ends the loop over the seeds with
    the exception of [urlparse], nothing catching it there: the seed is
    marked, and the seeds after it are not processed. *)
Theorem unparsable_seed_aborts u e rest (s : state World) :
  u ∉ seen_urls s -> budget_exhausted args s = false ->
  urlparse ext u = Raise e ->
  seed_loop ext args (u :: rest) s = (Raise e, mark_url u s).
Proof.
  intros Hn B Hp.
  pose proof (process_url_raises u e s Hn B Hp) as P.
  simpl. rewrite bind_gets, B. now rewrite (bind_raise _ _ _ _ _ P).
Qed.

(** X5. The expansion of a seed (lines 194-205) never raises.  When the
    request for the seed page raises, or when [collect_links] raises,
    as it does on an [href] that [urljoin] rejects, the state is the one
    after the request with one [CRAWL-ERROR] record: no link of that page
    is followed. *)
Theorem expand_seed_contains_errors seed (s : state World) :
  (expand_seed ext args seed s).1 = Ok tt /\
  (forall e w,
      session_get ext seed (timeout args) (world s) = (Raise e, w) ->
      expand_seed ext args seed s
      = (Ok tt, push_log (CRAWL_ERROR seed) (set_world w s))) /\
  (forall r w e,
      session_get ext seed (timeout args) (world s) = (Ok r, w) ->
      ok r && Py.contains "text/html" (default EmptyString (content_type r))
      = true ->
      collect_links ext seed (text r) (same_domain args) = Raise e ->
      expand_seed ext args seed s
      = (Ok tt, push_log (CRAWL_ERROR seed) (set_world w s))).
Proof.
  split; [apply try_logging_returns|]. split.
  - intros e w G. unfold expand_seed, try_except.
    assert (C : call (session_get ext seed (timeout args)) s
                = (Raise e, set_world w s)) by (unfold call; now rewrite G).
    now rewrite (bind_raise _ _ _ _ _ C).
  - intros r w e G H C.
    unfold expand_seed, try_except.
    assert (C1 : call (session_get ext seed (timeout args)) s
                 = (Ok r, set_world w s)) by (unfold call; now rewrite G).
    now rewrite (bind_ok _ _ _ _ _ C1), H, bind_pure, C.
Qed.

Lemma expand_seed_returns seed (s : state World) :
  (expand_seed ext args seed s).1 = Ok tt.
Proof. apply try_logging_returns. Qed.

Lemma polite_delay_returns (s : state World) :
  (forall d w, exists w', sleep_jitter ext d w = (Ok tt, w')) ->
  exists s', polite_delay ext args s = (Ok tt, s').
Proof.
  intros H. unfold polite_delay, call.
  destruct (H (delay_seconds args) (world s)) as [w' ->]. eauto.
Qed.

Lemma seed_loop_returns seeds :
  Forall (fun u => exists p, urlparse ext u = Ok p) seeds ->
  (forall d w, exists w', sleep_jitter ext d w = (Ok tt, w')) ->
  forall s : state World, (seed_loop ext args seeds s).1 = Ok tt.
Proof.
  intros Hp Hs. induction Hp as [|u rest [p Hu] _ IH]; intros s;
    [reflexivity|].
  simpl. rewrite bind_gets.
  destruct (budget_exhausted args s); [reflexivity|].
  pose proof (process_url_returns u p s Hu) as P.
  destruct (process_url ext args u s) as [r s1] eqn:E1. simpl in P. subst r.
  rewrite (bind_ok _ _ _ _ _ E1).
  destruct (polite_delay_returns s1 Hs) as [s2 E2].
  rewrite (bind_ok _ _ _ _ _ E2), bind_gets.
  assert (M : exists s3,
             (if crawl args && negb (budget_exhausted args s2)
              then expand_seed ext args u else mret tt) s2 = (Ok tt, s3)).
  { destruct (crawl args && negb (budget_exhausted args s2)).
    - pose proof (expand_seed_returns u s2) as T.
      destruct (expand_seed ext args u s2) as [r s3]. simpl in T. subst r.
      eauto.
    - eexists. reflexivity. }
  destruct M as [s3 M]. rewrite (bind_ok _ _ _ _ _ M). apply IH.
Qed.

(** X6. When the seeds file can be read, every line of it that is kept
    parses as a URL and [time.sleep] returns, the run ends normally,
    whatever the network, the extraction and the disk do. *)
Theorem run_completes w lines w' :
  read_lines ext (seeds args) w = (Ok lines, w') ->
  (forall ln, ln ∈ lines -> skipped_line ln = false ->
              exists p, urlparse ext (Py.strip ln) = Ok p) ->
  (forall d w0, exists w1, sleep_jitter ext d w0 = (Ok tt, w1)) ->
  (run ext args w).1 = Ok tt.
Proof.
  intros R Hp Hs. unfold run, main.
  destruct (read_seeds ext (seeds args) (initial w)) as [r s1] eqn:E.
  destruct r as [sds|e].
  - rewrite (bind_ok _ _ _ _ _ E). apply seed_loop_returns; [|exact Hs].
    destruct (read_seeds_members ext _ _ _ _ E)
      as (lines' & w'' & R' & _ & Hm & _).
    simpl in R'. rewrite R in R'. injection R' as <- <-.
    apply Forall_forall. intros u Hu. apply Hm in Hu as (ln & Hl & Hk & ->).
    apply (Hp ln Hl Hk).
  - exfalso. unfold read_seeds, call, mbind, M_bind in E. simpl in E.
    rewrite R in E. discriminate.
Qed.

End Errors.

Global Instance log_extends_preorder {World} : PreOrder (@log_extends World).
Proof.
  split.
  - intros s. exists []. reflexivity.
  - intros a b c [l1 H1] [l2 H2]. exists (l2 ++ l1).
    rewrite H2, H1. apply app_assoc.
Qed.

Global Instance grows_preorder {World} : PreOrder (@grows World).
Proof.
  split.
  - intros s. unfold grows. split; [lia|]. split; [done|]. split; [done|].
    split; [exists []; reflexivity | reflexivity].
  - intros a b c (A1 & A2 & A3 & [w1 A4] & A5) (B1 & B2 & B3 & [w2 B4] & B5).
    unfold grows. split; [lia|]. split; [etransitivity; eassumption|].
    split; [etransitivity; eassumption|]. split.
    + exists (w2 ++ w1). rewrite B4, A4. apply app_assoc.
    + etransitivity; eassumption.
Qed.

(** ** The loops of [main], from what their steps keep *)

Section LoopsOf.

Context {World : Type}.
Variable ext : Externals World.
Variable args : Args.
Variable R : state World -> state World -> Prop.
Context `{!PreOrder R}.
Hypothesis R_call : forall A (op : World -> result A * World), keeps R (call op).
Hypothesis R_logging : forall r, keeps R (logging r).
Hypothesis R_url : forall u, keeps R (process_url ext args u).

Lemma follow_links_keeps_of links : keeps R (follow_links ext args links).
Proof.
  induction links as [|link rest IH]; simpl; repeat keeps_step;
    auto; apply R_call.
Qed.

Lemma expand_seed_keeps_of seed : keeps R (expand_seed ext args seed).
Proof.
  unfold expand_seed. repeat keeps_step; auto using follow_links_keeps_of.
Qed.

Lemma seed_loop_keeps_of seeds : keeps R (seed_loop ext args seeds).
Proof.
  induction seeds as [|seed rest IH]; simpl; repeat keeps_step;
    auto using expand_seed_keeps_of; apply R_call.
Qed.

Lemma main_keeps_of : keeps R (main ext args).
Proof.
  unfold main, read_seeds. repeat keeps_step; auto using seed_loop_keeps_of.
Qed.

End LoopsOf.

(** ** Nothing is taken back *)

Section Growth.

Context {World : Type}.
Variable ext : Externals World.
Variable args : Args.

Lemma call_log {A} (op : World -> result A * World) :
  keeps log_extends (call op).
Proof.
  intros s. unfold call. destruct (op (world s)). exists []. reflexivity.
Qed.

Lemma logging_log r : keeps (@log_extends World) (logging r).
Proof. intros s. exists [r]. reflexivity. Qed.

Lemma modify_log (f : state World -> state World) :
  (forall s, log (f s) = log s) -> keeps log_extends (modify f).
Proof. intros H s. exists []. simpl. apply H. Qed.

Lemma write_out_log a b c d : keeps log_extends (write_out ext a b c d).
Proof.
  intros s. unfold write_out. destruct (write_file ext _ _ _ _).
  exists []. reflexivity.
Qed.

Lemma process_url_log u : keeps log_extends (process_url ext args u).
Proof.
  unfold process_url, ok_by_robots, acquire, fetch_wikipedia_plain,
    general_fetch, dedup_and_save, save_txt, add_seen_url, add_seen_hash,
    add_total_bytes.
  repeat keeps_step;
    auto using call_log, logging_log, write_out_log;
    apply modify_log; reflexivity.
Qed.

Lemma process_url_grows u : keeps grows (process_url ext args u).
Proof.
  intros s.
  pose proof (process_url_log u s) as L.
  destruct (process_url_step ext args u s) as (U & H & C).
  unfold grows. rewrite U.
  assert (Hu : seen_urls s ⊆ {[u]} ∪ seen_urls s) by apply union_subseteq_r.
  destruct C as [(T & _ & W) | (_ & _ & e & _ & W & [(_ & T & _) | (_ & T & _)])].
  - rewrite T, W. repeat split; try assumption; [lia | exists []; reflexivity].
  - rewrite T, W. repeat split; try assumption; [lia | exists [e]; reflexivity].
  - rewrite T, W. pose proof (page_bytes_nonneg e).
    repeat split; try assumption; [lia | exists [e]; reflexivity].
Qed.

Lemma call_grows {A} (op : World -> result A * World) : keeps grows (call op).
Proof.
  intros s. unfold call. destruct (op (world s)). simpl.
  unfold grows. simpl. split; [lia|]. split; [done|]. split; [done|].
  split; exists []; reflexivity.
Qed.

Lemma logging_grows r : keeps (@grows World) (logging r).
Proof.
  intros s. unfold grows. simpl. split; [lia|]. split; [done|].
  split; [done|]. split; [exists [] | exists [r]]; reflexivity.
Qed.

(** X7. Nothing is taken back: over one call of [process_url], and over
    the whole loop over the seeds, [total_bytes] does not go down, no
    URL or fingerprint is unmarked, and the files and the log are only
    added to.  Hence a budget once exhausted stays exhausted. *)
Theorem nothing_taken_back :
  (forall u (s : state World), grows s (process_url ext args u s).2) /\
  (forall seeds (s : state World), grows s (seed_loop ext args seeds s).2) /\
  (forall u (s : state World),
      budget_exhausted args s = true ->
      budget_exhausted args (process_url ext args u s).2 = true).
Proof.
  split; [exact process_url_grows|]. split.
  - intros seeds.
    apply (seed_loop_keeps_of ext args grows);
      [intros; apply call_grows | apply logging_grows | apply process_url_grows].
  - intros u s B. destruct (process_url_grows u s) as (T & _).
    unfold budget_exhausted in *. apply Z.leb_le. apply Z.leb_le in B. lia.
Qed.

End Growth.

(** ** Files, fingerprints and URLs, counted *)

Section Counts.

Context {World : Type}.
Variable ext : Externals World.
Variable args : Args.

(** What one call does to the fingerprints and the files: nothing, or for
    a new URL one new fingerprint and at most one file. *)
Lemma process_url_hash_step u (s : state World) :
  let s' := (process_url ext args u s).2 in
  (seen_hashes s' = seen_hashes s /\ written s' = written s) \/
  ((u ∉ seen_urls s) /\
   exists h, (h ∉ seen_hashes s) /\
             seen_hashes s' = {[h]} ∪ seen_hashes s /\
             (written s' = written s \/ exists e, written s' = e :: written s)).
Proof.
  intros s'. subst s'. unfold process_url. rewrite bind_gets.
  destruct (bool_decide_reflect (u ∈ seen_urls s)) as [Hin|Hnin];
    [left; split; reflexivity|].
  unfold add_seen_url. rewrite bind_modify, bind_gets.
  assert (base : forall s', quiet (mark_url u s) s' ->
                            seen_hashes s' = seen_hashes s /\
                            written s' = written s).
  { intros s' (_ & Q2 & _ & Q4 & _). split; assumption. }
  destruct (budget_exhausted args (mark_url u s)); [left; apply base; reflexivity|].
  pose proof (ok_by_robots_quiet ext u (user_agent args) (mark_url u s)) as R1.
  destruct (ok_by_robots ext u (user_agent args) (mark_url u s))
    as [[allowed|x] s1] eqn:E1; simpl in R1.
  2:{ rewrite (bind_raise _ _ _ _ _ E1). left. apply base, R1. }
  rewrite (bind_ok _ _ _ _ _ E1). destruct allowed; simpl.
  2:{ left. apply base, R1. }
  pose proof (acquire_quiet ext args u s1) as R2.
  assert (R12 : quiet (mark_url u s) (acquire ext args u s1).2)
    by (etransitivity; [exact R1 | exact R2]).
  clear R2. unfold try_except.
  destruct (acquire ext args u s1) as [[got|x] s2] eqn:E2; simpl in R12.
  2:{ rewrite (bind_raise _ _ _ _ _ E2). simpl. left. apply base, R12. }
  rewrite (bind_ok _ _ _ _ _ E2).
  destruct got as [[title text]|]; simpl; [|left; apply base, R12].
  destruct (base s2 R12) as [Bh Bw].
  pose proof (dedup_and_save_step ext args u title text s2) as D. simpl in D.
  set (h := sha1_hex (Py.strip text)) in *.
  assert (G : forall s3,
             (quiet s2 s3 \/
              ((h ∉ seen_hashes s2) /\
               (quiet (mark_hash h s2) s3 \/
                exists e, fw_url e = u /\
                  ((fw_ok e = false /\ quiet (push_write e (mark_hash h s2)) s3)
                   \/ (fw_ok e = true /\ exists s4,
                         quiet (push_write e (mark_hash h s2)) s4 /\
                         s3 = push_log (SAVED u (page_bytes e)
                                          (total_bytes s2 + page_bytes e))
                                (add_bytes (page_bytes e) s4)))))) ->
             forall s5, quiet s3 s5 ->
             (seen_hashes s5 = seen_hashes s /\ written s5 = written s) \/
             ((u ∉ seen_urls s) /\
              exists h0, (h0 ∉ seen_hashes s) /\
                seen_hashes s5 = {[h0]} ∪ seen_hashes s /\
                (written s5 = written s \/
                 exists e, written s5 = e :: written s))).
  { intros s3 C s5 (_ & Q2 & _ & Q4 & _). rewrite Q2, Q4.
    destruct C as [(_ & D2 & _ & D4 & _)
                  | [Hh [(_ & D2 & _ & D4 & _)
                        | (e & _ & [[_ (_ & D2 & _ & D4 & _)]
                                   | [_ (s4 & (_ & D2 & _ & D4 & _) & ->)]])]]];
      simpl in *.
    - left. split; congruence.
    - right. split; [exact Hnin|]. exists h. rewrite <- Bh.
      split; [exact Hh|]. split; [congruence|]. left. congruence.
    - right. split; [exact Hnin|]. exists h. rewrite <- Bh.
      split; [exact Hh|]. split; [congruence|]. right. exists e. congruence.
    - right. split; [exact Hnin|]. exists h. rewrite <- Bh.
      split; [exact Hh|]. split; [congruence|]. right. exists e. congruence. }
  destruct (dedup_and_save ext args u title text s2) as [[[]|x] s3].
  - apply (G s3 D). reflexivity.
  - apply (G s3 D (push_log (ERROR u x) s3)).
    exact (quiet_push_log (ERROR u x) s3 eq_refl).
Qed.

Lemma process_url_counts u (s : state World) :
  counts_inv s -> counts_inv (process_url ext args u s).2.
Proof.
  intros [C1 C2].
  destruct (process_url_step ext args u s) as (U & _).
  pose proof (process_url_hash_step u s) as H. simpl in H.
  unfold counts_inv. destruct H as [[Hh Hw] | (Hn & h & Hf & Hh & Hw)].
  - rewrite Hh, Hw, U. split; [exact C1|].
    etransitivity; [exact C2|]. apply subseteq_size, union_subseteq_r.
  - rewrite Hh, U.
    rewrite !size_union by (apply disjoint_singleton_l; assumption).
    rewrite !size_singleton. split; [|lia].
    destruct Hw as [-> | [e ->]]; simpl; lia.
Qed.

(** X8. After any run there are at most as many files opened as
    fingerprints marked, and at most as many fingerprints as URLs
    marked. *)
Theorem files_fingerprints_urls w :
  let s := (run ext args w).2 in
  (List.length (written s) <= size (seen_hashes s))%nat /\
  (size (seen_hashes s) <= size (seen_urls s))%nat.
Proof.
  unfold run.
  apply (main_keeps_of ext args (preserves counts_inv)).
  - intros A op s. unfold call, preserves, counts_inv.
    destruct (op (world s)). exact (fun H => H).
  - intros r s. exact (fun H => H).
  - intros u s. exact (process_url_counts u s).
  - split; [apply Nat.le_0_l | reflexivity].
Qed.

End Counts.

(** ** Edges of one call and of one run *)

Section Edges.

Context {World : Type}.
Variable ext : Externals World.
Variable args : Args.

(** X9. With a seeds file of blank lines and comments only (or an empty
    one) the run ends normally right after reading it: no request, no
    file, no log record, no URL marked. *)
Theorem run_without_seeds w lines w' :
  read_lines ext (seeds args) w = (Ok lines, w') ->
  Forall (fun ln => skipped_line ln = true) lines ->
  run ext args w = (Ok tt, set_world w' (initial w)).
Proof.
  intros R H. unfold run, main.
  now rewrite (bind_ok _ _ _ _ _
                 (read_seeds_all_skipped ext (seeds args) (initial w) lines w'
                    R H)).
Qed.

(** X10. When the write of a new page fails, [process_url] logs the
    error and returns; [total_bytes] and the [SAVED] records are as
    before, but the fingerprint of the text, marked before the write,
    stays marked: from then on any page with the same trimmed text is
    taken for a duplicate, though no file holds it. *)
Theorem failed_write_keeps_fingerprint u (s s1 s2 : state World)
    title x slug e w :
  u ∉ seen_urls s -> budget_exhausted args s = false ->
  ok_by_robots ext u (user_agent args) (mark_url u s) = (Ok true, s1) ->
  acquire ext args u s1 = (Ok (Some (title, x)), s2) ->
  sha1_hex (Py.strip x) ∉ seen_hashes s ->
  slugify ext u = Ok slug ->
  let content := save_content u title x (strftime ext (world s2)) in
  let entry := mkWrite u (out args) (slug +:+ ".txt") content false in
  write_file ext (out args) (slug +:+ ".txt") content (world s2)
    = (Raise e, w) ->
  let s' := push_log (ERROR u e)
              (push_write entry
                 (set_world w (mark_hash (sha1_hex (Py.strip x)) s2))) in
  process_url ext args u s = (Ok tt, s') /\
  total_bytes s' = total_bytes s /\
  saved (log s') = saved (log s) /\
  forall v t' x' (s'' : state World),
    grows s' s'' -> Py.strip x' = Py.strip x ->
    dedup_and_save ext args v t' x' s''
    = (Ok tt, push_log (DUPLICATE v) s'').
Proof.
  intros Hn B E A Hh Hs content entry W s'.
  assert (Q : quiet (mark_url u s) s2).
  { etransitivity.
    - pose proof (ok_by_robots_quiet ext u (user_agent args) (mark_url u s))
        as Q. rewrite E in Q. exact Q.
    - pose proof (acquire_quiet ext args u s1) as Q. rewrite A in Q.
      exact Q. }
  destruct Q as (Q1 & Q2 & _ & _ & Q5). simpl in Q1, Q2, Q5.
  assert (Hh2 : sha1_hex (Py.strip x) ∉ seen_hashes s2)
    by (rewrite Q2; exact Hh).
  split; [|split; [exact Q1 | split]].
  - rewrite (process_url_acquired ext args u s s1 s2 title x Hn B E A).
    unfold try_except.
    rewrite (dedup_and_save_fresh ext args u title x slug s2 Hh2 Hs).
    fold content. rewrite W. reflexivity.
  - unfold saved in *. simpl. exact Q5.
  - intros v t' x' s'' (_ & G & _) Hx.
    apply dedup_and_save_duplicate. rewrite Hx. apply G. simpl.
    apply elem_of_union_l, elem_of_singleton. reflexivity.
Qed.

(** X11. For a Wikipedia article URL whose plain-text request answers
    200 with a text that is not blank, [fetch_wikipedia_plain] returns
    that text untrimmed, after exactly one more request, the one for the
    summary.  The title is the one of the summary when that request
    succeeds with an [ok] response whose JSON can be read; in every other
    case (the request raises, the response is not [ok], the JSON cannot
    be read) it is the last path segment after [/wiki/], unquoted, with
    [_] replaced by blanks. *)
Theorem wikipedia_title_fallback u parsed r w (s : state World) :
  urlparse ext u = Ok parsed ->
  Py.contains "wikipedia.org" (netloc parsed) = true ->
  Py.contains "/wiki/" (path parsed) = true ->
  let title := wiki_title ext parsed in
  session_get ext
    ("https://" +:+ netloc parsed +:+ "/api/rest_v1/page/plain/" +:+ title)
    (timeout args) (world s) = (Ok r, w) ->
  status_code r = 200 -> Py.truthy (Py.strip (text r)) = true ->
  let summary :=
    session_get ext
      ("https://" +:+ netloc parsed +:+ "/api/rest_v1/page/summary/"
       +:+ title) (timeout args) w in
  let fallback := Some (Py.replace_char "_" " " title) in
  fetch_wikipedia_plain ext u (timeout args) s =
  (Ok (match summary.1 with
       | Ok sm => if ok sm
                  then match json_title sm with
                       | Ok t => t
                       | Raise _ => fallback
                       end
                  else fallback
       | Raise _ => fallback
       end, Some (text r)),
   set_world summary.2 s).
Proof.
  intros Hp H1 H2 title G Hs Ht summary fallback.
  unfold fetch_wikipedia_plain. rewrite bind_pure, Hp, H1, H2. simpl.
  fold (wiki_title ext parsed). fold title.
  assert (C : call (session_get ext
                      ("https://" +:+ netloc parsed +:+
                       "/api/rest_v1/page/plain/" +:+ title) (timeout args)) s
              = (Ok r, set_world w s)) by (unfold call; now rewrite G).
  rewrite (bind_ok _ _ _ _ _ C), Hs, Ht. simpl.
  unfold mbind, M_bind, try_except, call, pure. simpl. fold summary.
  destruct summary as [[sm|e] w2]; simpl; [|reflexivity].
  destruct (ok sm); [|reflexivity].
  destruct (json_title sm); reflexivity.
Qed.


End Edges.

Lemma size_list_to_set_le (l : list string) :
  (size (list_to_set l : gset string) <= List.length l)%nat.
Proof.
  induction l as [|x l IH]; [done|].
  rewrite list_to_set_cons. cbn [List.length].
  - rewrite size_union_alt, size_singleton.
    pose proof (subseteq_size (list_to_set l ∖ {[x]}) (list_to_set l : gset string)
                  ltac:(apply subseteq_difference_l; reflexivity)).
    lia.
Qed.

Lemma slice_to_length {A} n (l : list A) :
  (List.length (Py.slice_to (Z.max 0 n) l) <= Z.to_nat (Z.max 0 n))%nat.
Proof.
  unfold Py.slice_to. destruct (Z.ltb_spec (Z.max 0 n) 0); [lia|].
  rewrite length_firstn. lia.
Qed.

Lemma encode_utf8_length s :
  (String.length s <= List.length (Py.encode_utf8 s))%nat.
Proof.
  unfold Py.encode_utf8. induction s as [|c s IH]; simpl; [lia|].
  rewrite length_app.
  assert (List.length (Py.utf8_char c) = 1 \/ List.length (Py.utf8_char c) = 2)%nat
    as [-> | ->]; [|lia|lia].
  unfold Py.utf8_char. destruct (_ <? 128); auto.
Qed.

Lemma save_content_length url title text now :
  String.length (save_content url title text now)
  = (22 + String.length url
     + String.length (Py.strip ("TITLE: " +:+ or_empty title))
     + String.length now + String.length (Py.strip text))%nat.
Proof.
  unfold save_content, Py.join.
  repeat rewrite length_append.
  change (String.length nl) with 1%nat.
  change (String.length "URL: ") with 5%nat.
  change (String.length "CRAWLED_AT: ") with 12%nat. lia.
Qed.

Section More.

Context {World : Type}.
Variable ext : Externals World.
Variable args : Args.

(** X13. When [save_txt] returns, it has opened one file for the URL
    and written it, and the number it returns is the length in bytes of
    what was written, header included: at least the number of characters
    written, which is at least 22 more than the URL and the trimmed text
    together.  So every page saved counts for more than its text. *)
Theorem save_txt_counts_header out_dir url title text (s s' : state World) n :
  save_txt ext out_dir url title text s = (Ok n, s') ->
  exists e,
    written s' = e :: written s /\ fw_url e = url /\ fw_ok e = true /\
    n = page_bytes e /\
    Z.of_nat (String.length (fw_content e)) <= n /\
    22 + Z.of_nat (String.length url)
    + Z.of_nat (String.length (Py.strip text))
    <= Z.of_nat (String.length (fw_content e)).
Proof.
  unfold save_txt. rewrite bind_pure.
  destruct (slugify ext url) as [slug|x]; [|discriminate].
  rewrite bind_gets.
  unfold mbind, M_bind, write_out.
  destruct (write_file ext _ _ _ (world s)) as [[[]|x] w]; [|discriminate].
  intros [= <- <-].
  set (content := save_content url title text (strftime ext (world s))).
  exists (mkWrite url out_dir (slug +:+ ".txt") content true).
  split; [reflexivity|]. split; [reflexivity|]. split; [reflexivity|].
  split; [reflexivity|].
  change (Z.of_nat (String.length content)
          <= Z.of_nat (List.length (Py.encode_utf8 content))
          /\ 22 + Z.of_nat (String.length url)
             + Z.of_nat (String.length (Py.strip text))
             <= Z.of_nat (String.length content)).
  pose proof (encode_utf8_length content).
  pose proof (save_content_length url title text (strftime ext (world s))).
  fold content in H0. lia.
Qed.

Lemma collect_loop_size base_url base_domain sd hrefs :
  forall links result,
    collect_loop ext base_url base_domain sd hrefs links = Ok result ->
    (size result <= size links + List.length hrefs)%nat.
Proof.
  induction hrefs as [|a rest IH]; intros links result H; simpl in *.
  - injection H as <-. lia.
  - assert (Hadd : forall x, (size ({[x]} ∪ links) <= S (size links))%nat).
    { intros x. rewrite size_union_alt, size_singleton.
      pose proof (subseteq_size (links ∖ {[x]}) links ltac:(apply subseteq_difference_l; reflexivity)).
      lia. }
    destruct (_ || _).
    { apply IH in H. lia. }
    unfold mbind, result_bind in H.
    destruct (urljoin ext base_url (Py.strip a)) as [u|e]; [|discriminate].
    destruct sd.
    + destruct (urlparse ext u) as [p|e]; [|discriminate]. simpl in H.
      destruct (negb _); apply IH in H; [lia|]. specialize (Hadd u). lia.
    + simpl in H. apply IH in H. specialize (Hadd u). lia.
Qed.

(** X14. [collect_links] returns at most as many links as the page has
    anchors with an [href], and the links it returns with [same_domain]
    are among the ones it returns without. *)
Theorem collect_links_bounds base_url html :
  (forall sd links,
      collect_links ext base_url html sd = Ok links ->
      (List.length links <= List.length (find_all_a_href ext html))%nat) /\
  (forall inside all,
      collect_links ext base_url html true = Ok inside ->
      collect_links ext base_url html false = Ok all ->
      inside ⊆ all).
Proof.
  unfold collect_links, mbind, result_bind.
  destruct (urlparse ext base_url) as [base|e];
    [|split; intros; discriminate].
  split.
  - intros sd links H.
    destruct (collect_loop ext base_url (netloc base) sd _ ∅) as [set|e] eqn:L;
      [|discriminate].
    injection H as <-. apply collect_loop_size in L.
    rewrite size_empty in L.
    change (size set <= List.length (find_all_a_href ext html))%nat in L.
    unfold size, set_size in L. simpl in L. exact L.
  - intros inside all H1 H2.
    destruct (collect_loop ext base_url (netloc base) true _ ∅)
      as [s1|e] eqn:L1; [|discriminate].
    destruct (collect_loop ext base_url (netloc base) false _ ∅)
      as [s2|e] eqn:L2; [|discriminate].
    injection H1 as <-. injection H2 as <-. intros u.
    rewrite !elem_of_elements,
      (collect_loop_spec ext _ _ _ _ _ _ L1 u),
      (collect_loop_spec ext _ _ _ _ _ _ L2 u).
    intros [H | (a & Ha & A1 & A2 & A3 & A4 & _)]; [left; exact H|].
    right. exists a. split; [exact Ha|].
    repeat split; try assumption. discriminate.
Qed.

Lemma seed_loop_no_crawl all seeds :
  crawl args = false -> seeds ⊆ all ->
  keeps (visited_among all) (seed_loop ext args seeds).
Proof.
  intros Hc. induction seeds as [|seed rest IH]; intros Hsub; simpl.
  - keeps_step.
  - rewrite Hc. simpl.
    assert (Q : forall A (m : M (state World) A),
               keeps quiet m -> keeps (visited_among all) m).
    { intros A m H s u Hu. left. destruct (H s) as (_ & _ & <- & _).
      exact Hu. }
    assert (Hrest : keeps (visited_among all) (seed_loop ext args rest)).
    { apply IH. intros x Hx. apply Hsub. constructor. exact Hx. }
    repeat keeps_step; auto using polite_delay_quiet.
    intros s u Hu.
    destruct (process_url_step ext args seed s) as (U & _).
    rewrite U in Hu. apply elem_of_union in Hu as [Hu|Hu]; [|left; exact Hu].
    apply elem_of_singleton in Hu as ->. right. apply Hsub. constructor.
Qed.

(** X15. Without [--crawl] the loop marks seeds only: a URL marked
    afterwards was marked before or is a seed, so at most one URL is
    newly marked per seed. *)
Theorem no_crawl_visits_only_seeds seeds (s : state World) :
  crawl args = false ->
  let s' := (seed_loop ext args seeds s).2 in
  (forall u, u ∈ seen_urls s' -> u ∈ seen_urls s \/ u ∈ seeds) /\
  (size (seen_urls s') <= size (seen_urls s) + List.length seeds)%nat.
Proof.
  intros Hc s'.
  pose proof (seed_loop_no_crawl seeds seeds Hc ltac:(done) s) as V.
  fold s' in V. split; [exact V|].
  etransitivity; [apply (subseteq_size _ (seen_urls s ∪ list_to_set seeds))|].
  - intros u Hu. apply elem_of_union.
    destruct (V u Hu) as [H|H]; [left; exact H|].
    right. apply elem_of_list_to_set, H.
  - rewrite size_union_alt.
    pose proof (subseteq_size (list_to_set seeds ∖ seen_urls s)
                  (list_to_set seeds : gset string) ltac:(apply subseteq_difference_l; reflexivity)).
    pose proof (size_list_to_set_le seeds). lia.
Qed.

(** X16. The expansion of one seed marks the URLs of at most
    [max(0, max_follow)] links, whatever the page holds. *)
Theorem expansion_follows_at_most_max_follow seed (s : state World) :
  let s' := (expand_seed ext args seed s).2 in
  exists followed,
    (List.length followed <= Z.to_nat (Z.max 0 (max_follow args)))%nat /\
    (forall u, u ∈ seen_urls s' -> u ∈ seen_urls s \/ u ∈ followed) /\
    (size (seen_urls s') <=
     size (seen_urls s) + Z.to_nat (Z.max 0 (max_follow args)))%nat.
Proof.
  intros s'.
  assert (H : exists followed,
             (List.length followed <= Z.to_nat (Z.max 0 (max_follow args)))%nat
             /\ visited_among followed s s').
  { subst s'. unfold expand_seed, try_except.
    assert (N : forall s1 : state World,
               seen_urls s1 = seen_urls s ->
               exists followed,
                 (List.length followed
                  <= Z.to_nat (Z.max 0 (max_follow args)))%nat /\
                 visited_among followed s s1).
    { intros s1 E. exists []. split; [simpl; lia|].
      intros u Hu. left. rewrite <- E. exact Hu. }
    destruct (call (session_get ext seed (timeout args)) s)
      as [[r|e] s1] eqn:C1.
    2:{ rewrite (bind_raise _ _ _ _ _ C1). apply N. simpl.
        unfold call in C1. destruct (session_get ext _ _ _) in C1.
        injection C1 as _ <-. reflexivity. }
    assert (E1 : seen_urls s1 = seen_urls s).
    { unfold call in C1. destruct (session_get ext _ _ _) in C1.
      injection C1 as _ <-. reflexivity. }
    rewrite (bind_ok _ _ _ _ _ C1).
    destruct (ok r && _); [|apply N; exact E1].
    rewrite bind_pure.
    destruct (collect_links ext seed (text r) (same_domain args))
      as [links|e]; [|apply N; exact E1].
    unfold mbind at 1, M_bind at 1, call at 1.
    destruct (shuffle ext links (world s1)) as [l w2].
    set (s2 := set_world w2 s1).
    set (followed := Py.slice_to (Z.max 0 (max_follow args)) l).
    exists followed. split; [apply slice_to_length|].
    assert (K : keeps (visited_among followed)
                  (follow_links ext args followed)).
    { apply (follow_links_keeps ext args (visited_among followed))
        with (P := fun u => u ∈ followed).
      - intros a b (_ & _ & Q & _) u Hu. left. rewrite <- Q. exact Hu.
      - intros u a b Hu (U & _) v Hv. rewrite U in Hv.
        apply elem_of_union in Hv as [Hv|Hv]; [|left; exact Hv].
        apply elem_of_singleton in Hv as ->. right. exact Hu.
      - apply Forall_forall. auto. }
    specialize (K s2).
    destruct (follow_links ext args followed s2) as [[[]|e] s3];
      simpl in *; intros u Hu; destruct (K u Hu) as [H|H]; auto;
      left; rewrite <- E1; exact H. }
  destruct H as (followed & L & V). exists followed.
  split; [exact L|]. split; [exact V|].
  etransitivity; [apply (subseteq_size _ (seen_urls s ∪ list_to_set followed))|].
  - intros u Hu. apply elem_of_union.
    destruct (V u Hu) as [H|H]; [left; exact H|].
    right. apply elem_of_list_to_set, H.
  - rewrite size_union_alt.
    pose proof (subseteq_size (list_to_set followed ∖ seen_urls s)
                  (list_to_set followed : gset string) ltac:(apply subseteq_difference_l; reflexivity)).
    pose proof (size_list_to_set_le followed). lia.
Qed.

End More.

Lemma prefix_append a b : String.prefix a (a +:+ b) = true.
Proof.
  induction a as [|c a IH]; [destruct b; reflexivity|].
  change (String.prefix (String c a) (String c (a +:+ b)) = true).
  simpl. destruct (ascii_dec c c); [exact IH | congruence].
Qed.

Lemma append_assoc (a b c : string) : (a +:+ b) +:+ c = a +:+ b +:+ c.
Proof.
  induction a as [|x a IH]; [reflexivity|].
  change (String x ((a +:+ b) +:+ c) = String x (a +:+ b +:+ c)).
  now rewrite IH.
Qed.

Lemma save_content_first_line url title text now :
  Py.startswith (save_content url title text now) ("URL: " +:+ url +:+ nl)
  = true.
Proof.
  assert (E : save_content url title text now
              = ("URL: " +:+ url +:+ nl)
                +:+ Py.strip ("TITLE: " +:+ or_empty title) +:+ nl
                +:+ "CRAWLED_AT: " +:+ now +:+ nl +:+ nl
                +:+ Py.strip text +:+ nl).
  { unfold save_content, Py.join. now rewrite !append_assoc. }
  rewrite E. apply prefix_append.
Qed.

Section Accepted.

Context {World : Type}.
Variable ext : Externals World.
Variable args : Args.

Lemma general_fetch_accepts u title x (s s' : state World) :
  general_fetch ext args u s = (Ok (Some (title, x)), s') ->
  exists r w,
    session_get ext u (timeout args) (world s) = (Ok r, w) /\
    s' = set_world w s /\
    Py.contains "text/html" (default EmptyString (content_type r)) = true /\
    trafilatura_extract ext (text r) = Ok (Some x) /\
    title = match trafilatura_bare_extraction ext (text r) with
            | Ok (Some t) => t
            | _ => None
            end /\
    300 <= Z.of_nat (String.length (Py.strip x)).
Proof.
  unfold general_fetch.
  destruct (session_get ext u (timeout args) (world s)) as [[r|e] w] eqn:G.
  2:{ assert (C : call (session_get ext u (timeout args)) s
                  = (Raise e, set_world w s)) by (unfold call; now rewrite G).
      rewrite (bind_raise _ _ _ _ _ C). discriminate. }
  assert (C : call (session_get ext u (timeout args)) s
              = (Ok r, set_world w s)) by (unfold call; now rewrite G).
  rewrite (bind_ok _ _ _ _ _ C).
  destruct (Py.contains "text/html" _) eqn:H; simpl; [|discriminate].
  rewrite bind_pure.
  destruct (extract_with_trafilatura ext u (text r)) as [[t d]|e] eqn:X;
    [|discriminate].
  destruct (falsy d) eqn:F; simpl; [discriminate|].
  destruct (Z.ltb_spec (Z.of_nat (String.length (Py.strip (or_empty d)))) 300)
    as [L|L]; [discriminate|].
  intros [= <- <- <-].
  unfold extract_with_trafilatura, mbind, result_bind in X.
  destruct (trafilatura_extract ext (text r)) as [d0|e] eqn:T;
    [|discriminate].
  destruct (falsy d0) eqn:F0; [injection X as <- <-; discriminate|].
  injection X as <- <-.
  destruct d0 as [d0|]; [|discriminate].
  exists r, w.
  refine (conj eq_refl (conj eq_refl (conj H (conj T (conj _ L))))).
  destruct (trafilatura_bare_extraction ext (text r)) as [[t|]|e];
    reflexivity.
Qed.

Lemma strip_long_truthy x :
  300 <= Z.of_nat (String.length (Py.strip x)) ->
  Py.truthy (Py.strip x) = true.
Proof. destruct (Py.strip x); simpl; [lia | reflexivity]. Qed.

(** X17. A text that the acquisition of lines 156-169 hands on to
    deduplication is never blank.  It is the text of the Wikipedia fast
    path, with its title; or the fast path gave no text, the page was
    requested once, its Content-Type contains [text/html], the text is
    the one [trafilatura.extract] made of the body, 300 characters or
    more once trimmed, and the title is the one of the metadata, or
    [None] when there is none or when reading the metadata raises. *)
Theorem acquire_accepts u title x (s s' : state World) :
  acquire ext args u s = (Ok (Some (title, x)), s') ->
  Py.truthy (Py.strip x) = true /\
  (fetch_wikipedia_plain ext u (timeout args) s = (Ok (title, Some x), s') \/
   exists t0 x0 s1 r w,
     fetch_wikipedia_plain ext u (timeout args) s = (Ok (t0, x0), s1) /\
     falsy x0 = true /\
     session_get ext u (timeout args) (world s1) = (Ok r, w) /\
     s' = set_world w s1 /\
     Py.contains "text/html" (default EmptyString (content_type r)) = true /\
     trafilatura_extract ext (text r) = Ok (Some x) /\
     title = match trafilatura_bare_extraction ext (text r) with
             | Ok (Some t) => t
             | _ => None
             end /\
     300 <= Z.of_nat (String.length (Py.strip x))).
Proof.
  unfold acquire. unfold mbind at 1, M_bind at 1.
  destruct (fetch_wikipedia_plain ext u (timeout args) s)
    as [[[t0 x0]|e] s1] eqn:F; [|discriminate].
  destruct (falsy x0) eqn:Hf.
  - intros G. destruct (general_fetch_accepts _ _ _ _ _ G)
      as (r & w & G1 & G2 & G3 & G4 & G5 & G6).
    split; [apply strip_long_truthy, G6|]. right.
    exists t0, x0, s1, r, w. repeat split; assumption.
  - intros [= <- <- <-]. destruct x0 as [x0|]; [|discriminate].
    split; [apply (fetch_wikipedia_plain_text ext _ _ _ _ _ _ F)|].
    left. reflexivity.
Qed.

Lemma acquire_text u title x (s s' : state World) :
  acquire ext args u s = (Ok (Some (title, x)), s') ->
  Py.truthy (Py.strip x) = true.
Proof.
  unfold acquire. unfold mbind at 1, M_bind at 1.
  destruct (fetch_wikipedia_plain ext u (timeout args) s)
    as [[[t0 x0]|e] s1] eqn:F; [|discriminate].
  destruct (falsy x0) eqn:Hf.
  - intros G. destruct (general_fetch_accepts _ _ _ _ _ G)
      as (r & w & _ & _ & _ & _ & _ & G6).
    apply strip_long_truthy, G6.
  - intros [= <- <- <-]. destruct x0 as [x0|]; [|discriminate].
    apply (fetch_wikipedia_plain_text ext _ _ _ _ _ _ F).
Qed.

Lemma files_inv_quiet (s s' : state World) :
  written s' = written s -> seen_urls s ⊆ seen_urls s' ->
  files_inv ext args s -> files_inv ext args s'.
Proof.
  intros W U I e He. rewrite W in He. destruct (I e He) as [H1 H2].
  split; [apply U, H1 | exact H2].
Qed.

Lemma dedup_and_save_files u title x (s : state World) :
  u ∈ seen_urls s -> Py.truthy (Py.strip x) = true ->
  files_inv ext args s ->
  files_inv ext args (dedup_and_save ext args u title x s).2.
Proof.
  intros Hu Hx I. unfold dedup_and_save. rewrite bind_gets.
  destruct (bool_decide _); [apply (files_inv_quiet s); [reflexivity|done|exact I]|].
  unfold add_seen_hash. rewrite bind_modify.
  set (h := sha1_hex (Py.strip x)).
  unfold save_txt. unfold mbind at 1, M_bind at 1. rewrite bind_pure.
  destruct (slugify ext u) as [slug|e] eqn:Hs;
    [|apply (files_inv_quiet s); [reflexivity|done|exact I]].
  rewrite bind_gets. unfold mbind at 1, M_bind at 1, write_out.
  set (content := save_content u title x
                    (strftime ext (world (mark_hash h s)))).
  assert (P : forall ok0, placed ext args
                (mkWrite u (out args) (slug +:+ ".txt") content ok0)).
  { intros ok0. split; [reflexivity|]. split.
    - exists slug. split; [exact Hs | reflexivity].
    - exists title, x, (strftime ext (world (mark_hash h s))).
      split; [exact Hx | reflexivity]. }
  assert (N : forall ok0 s',
             written s' = mkWrite u (out args) (slug +:+ ".txt") content ok0
                          :: written s ->
             seen_urls s' = seen_urls s -> files_inv ext args s').
  { intros ok0 s' W U e He. rewrite W in He. rewrite U.
    apply elem_of_cons in He as [->|He]; [|apply I, He].
    split; [exact Hu | apply P]. }
  destruct (write_file ext _ _ _ _) as [[[]|e] w]; simpl.
  - apply (N true); reflexivity.
  - apply (N false); reflexivity.
Qed.

Lemma process_url_files u (s : state World) :
  files_inv ext args s -> files_inv ext args (process_url ext args u s).2.
Proof.
  intros I. unfold process_url. rewrite bind_gets.
  destruct (bool_decide (u ∈ seen_urls s)); [exact I|].
  unfold add_seen_url. rewrite bind_modify, bind_gets.
  assert (I1 : files_inv ext args (mark_url u s)).
  { apply (files_inv_quiet s); [reflexivity | | exact I].
    change (seen_urls s ⊆ {[u]} ∪ seen_urls s). apply union_subseteq_r. }
  assert (base : forall s', quiet (mark_url u s) s' -> files_inv ext args s').
  { intros s' (_ & _ & Q3 & Q4 & _).
    apply (files_inv_quiet (mark_url u s)); [exact Q4 | now rewrite Q3 | exact I1]. }
  destruct (budget_exhausted args (mark_url u s)); [exact I1|].
  pose proof (ok_by_robots_quiet ext u (user_agent args) (mark_url u s)) as R1.
  destruct (ok_by_robots ext u (user_agent args) (mark_url u s))
    as [[allowed|e] s1] eqn:E1; simpl in R1.
  2:{ rewrite (bind_raise _ _ _ _ _ E1). apply base, R1. }
  rewrite (bind_ok _ _ _ _ _ E1). destruct allowed; simpl.
  2:{ apply base. etransitivity; [exact R1|].
      apply quiet_push_log. reflexivity. }
  pose proof (acquire_quiet ext args u s1) as R2.
  assert (R12 : quiet (mark_url u s) (acquire ext args u s1).2)
    by (etransitivity; [exact R1 | exact R2]).
  clear R2. unfold try_except.
  destruct (acquire ext args u s1) as [[got|e] s2] eqn:E2; simpl in R12.
  2:{ rewrite (bind_raise _ _ _ _ _ E2). simpl.
      apply (files_inv_quiet s2); [reflexivity | done | apply base, R12]. }
  rewrite (bind_ok _ _ _ _ _ E2).
  destruct got as [[title x]|]; simpl; [|apply base, R12].
  assert (Hu : u ∈ seen_urls s2).
  { destruct R12 as (_ & _ & -> & _). simpl.
    apply elem_of_union_l, elem_of_singleton. reflexivity. }
  pose proof (dedup_and_save_files u title x s2 Hu
                (acquire_text u title x s1 s2 E2) (base s2 R12)) as D.
  destruct (dedup_and_save ext args u title x s2) as [[[]|e] s3];
    simpl in *; [exact D|].
  apply (files_inv_quiet s3); [reflexivity | done | exact D].
Qed.

Lemma slugify_name_safe u name :
  slugify ext u = Ok name -> safe_name (name +:+ ".txt") = true.
Proof.
  unfold slugify, mbind, result_bind.
  destruct (urlparse ext u) as [parsed|e]; [|discriminate].
  intros [= <-].
  assert (S : safe_name (slug_base parsed +:+ "-" +:+ Py.take 8 (sha1_hex u))
              = true).
  { unfold safe_name. rewrite !all_chars_app.
    fold (safe_name (slug_base parsed)).
    fold (safe_name (Py.take 8 (sha1_hex u))).
    now rewrite slug_base_safe, sha1_prefix_safe. }
  change (safe_name ((slug_base parsed +:+ "-" +:+ Py.take 8 (sha1_hex u))
                     +:+ ".txt") = true).
  unfold safe_name in *. rewrite all_chars_app, S. reflexivity.
Qed.

(** X18. Every file opened during a run is for a URL that is marked,
    lies in the output directory under the name [slugify] gives its URL
    followed by [.txt], a name without [/], and holds the header of that
    URL, whose first line is [URL: ] and the URL, over a text that is not
    blank. *)
Theorem files_are_placed w e :
  let s := (run ext args w).2 in
  e ∈ written s ->
  fw_url e ∈ seen_urls s /\
  fw_dir e = out args /\
  (exists slug, slugify ext (fw_url e) = Ok slug /\
                fw_name e = slug +:+ ".txt") /\
  safe_name (fw_name e) = true /\
  Py.contains "/" (fw_name e) = false /\
  (exists title text now,
      Py.truthy (Py.strip text) = true /\
      fw_content e = save_content (fw_url e) title text now) /\
  Py.startswith (fw_content e) ("URL: " +:+ fw_url e +:+ nl) = true.
Proof.
  intros s He.
  assert (I : files_inv ext args s).
  { subst s. unfold run.
    apply (main_keeps_of ext args (preserves (files_inv ext args))).
    - intros A op s. unfold call, preserves.
      destruct (op (world s)). exact (fun H => H).
    - intros r s. exact (fun H => H).
    - intros u s. exact (process_url_files u s).
    - intros e0 H0. apply elem_of_nil in H0. destruct H0. }
  destruct (I e He) as (Hu & Hd & (slug & Hs & Hn) & (title & x & now & Hx & Hc)).
  assert (S : safe_name (fw_name e) = true).
  { rewrite Hn. apply (slugify_name_safe _ _ Hs). }
  split; [exact Hu|]. split; [exact Hd|].
  split; [exists slug; split; assumption|].
  split; [exact S|]. split; [apply safe_name_no_slash, S|].
  split; [exists title, x, now; split; assumption|].
  rewrite Hc. apply save_content_first_line.
Qed.

End Accepted.

(** ** The further properties on the small worlds *)

(** A URL with blanks and brackets in its path. *)
Lemma slugify_safe_name_witness :
  let name := "example.com-docs-My-Page-draft--436bd8ec" in
  safe_name name = true /\
  Py.contains "/" name = false /\
  (10 <= String.length name)%nat /\
  exists base,
    Py.truthy base = true /\
    name = base +:+ "-"
           +:+ Py.take 8 (sha1_hex "http://example.com/docs/My Page (draft)/").
Proof.
  apply (slugify_safe_name Demo.ext
           "http://example.com/docs/My Page (draft)/").
  vm_compute. reflexivity.
Defined.

(** The seeds file of the small world: a comment, a blank line and one
    page twice give two seeds. *)
Lemma read_seeds_clean_witness :
  Forall (fun seed => Py.truthy seed = true /\
                      Py.strip seed = seed /\
                      Py.startswith seed "#" = false)
    [Demo.page_a; Demo.page_a] /\
  exists lines w,
    read_lines Demo.ext "seeds.txt" (world (initial [])) = (Ok lines, w) /\
    initial [] = set_world w (initial []) /\
    (forall seed, seed ∈ [Demo.page_a; Demo.page_a] <->
                  exists ln, ln ∈ lines /\ skipped_line ln = false /\
                             seed = Py.strip ln) /\
    (List.length [Demo.page_a; Demo.page_a] <= List.length lines)%nat.
Proof.
  apply (read_seeds_clean Demo.ext "seeds.txt" (initial []) (initial [])).
  vm_compute. reflexivity.
Defined.

(** A seeds file of comments and blank lines. *)
Lemma run_without_seeds_witness :
  run Faulty.ext (Faulty.args_of "comments.txt") []
  = (Ok tt, set_world [] (initial [])).
Proof.
  apply (run_without_seeds Faulty.ext (Faulty.args_of "comments.txt") []
           Faulty.comment_lines []).
  - reflexivity.
  - repeat constructor.
Defined.

(** A page whose write fails, and a URL that does not parse. *)
Lemma process_url_contains_errors_witness :
  (process_url Faulty.ext (Faulty.args_of "bad.txt") Demo.page_a
     (initial [])).1 = Ok tt /\
  process_url Faulty.ext (Faulty.args_of "bad.txt") Faulty.bad_url (initial [])
  = (Raise "Invalid IPv6 URL", mark_url Faulty.bad_url (initial [])).
Proof.
  split.
  - apply (proj1 (process_url_contains_errors Faulty.ext
                    (Faulty.args_of "bad.txt") Demo.page_a (initial []))).
    right. right.
    exists (mkParseResult "http" "example.com" "/a" EmptyString EmptyString
              EmptyString).
    reflexivity.
  - apply (proj2 (process_url_contains_errors Faulty.ext
                    (Faulty.args_of "bad.txt") Faulty.bad_url (initial []))).
    + apply not_elem_of_empty.
    + reflexivity.
    + reflexivity.
Defined.

(** The seeds file whose first line does not parse: the page after it is
    never reached. *)
Lemma unparsable_seed_aborts_witness :
  seed_loop Faulty.ext (Faulty.args_of "bad.txt")
    [Faulty.bad_url; Demo.page_a] (initial [])
  = (Raise "Invalid IPv6 URL", mark_url Faulty.bad_url (initial [])).
Proof.
  apply (unparsable_seed_aborts Faulty.ext (Faulty.args_of "bad.txt")).
  - apply not_elem_of_empty.
  - reflexivity.
  - reflexivity.
Defined.

(** A seed on the host that is down, and a seed whose page has a link
    that does not parse. *)
Lemma expand_seed_contains_errors_witness :
  expand_seed Demo.ext (Demo.crawl_index 5) Demo.down (initial [])
  = (Ok tt, push_log (CRAWL_ERROR Demo.down)
              (set_world [Demo.down] (initial []))) /\
  expand_seed Faulty.ext (Demo.crawl_index 5) Faulty.broken (initial [])
  = (Ok tt, push_log (CRAWL_ERROR Faulty.broken)
              (set_world [Faulty.broken] (initial []))).
Proof.
  split.
  - apply (proj1 (proj2 (expand_seed_contains_errors Demo.ext
                           (Demo.crawl_index 5) Demo.down (initial [])))
             "ConnectionError" [Demo.down]).
    reflexivity.
  - apply (proj2 (proj2 (expand_seed_contains_errors Faulty.ext
                           (Demo.crawl_index 5) Faulty.broken (initial [])))
             (Demo.html Faulty.broken_markup) [Faulty.broken]
             "Invalid IPv6 URL").
    + reflexivity.
    + reflexivity.
    + vm_compute. reflexivity.
Defined.

(** The run of the small world on its seeds file. *)
Lemma run_completes_witness : (run Demo.ext Demo.args []).1 = Ok tt.
Proof.
  apply (run_completes Demo.ext Demo.args [] Demo.seed_lines []).
  - reflexivity.
  - intros ln Hl Hk.
    exists (mkParseResult "http" "example.com" "/a" EmptyString EmptyString
              EmptyString).
    repeat (apply elem_of_cons in Hl as [-> | Hl]);
      try discriminate; try reflexivity.
    apply elem_of_nil in Hl. destruct Hl.
  - intros d w0. exists w0. reflexivity.
Defined.

(** One page saved, then the run on the page with the links. *)
Lemma nothing_taken_back_witness :
  grows (initial [])
    (process_url Demo.ext Demo.args Demo.page_a (initial [])).2 /\
  grows (process_url Demo.ext Demo.args Demo.page_a (initial [])).2
    (seed_loop Demo.ext (Demo.crawl_index 2) [Demo.index]
       (process_url Demo.ext Demo.args Demo.page_a (initial [])).2).2.
Proof.
  split.
  - apply (proj1 (nothing_taken_back Demo.ext Demo.args)).
  - apply (proj1 (proj2 (nothing_taken_back Demo.ext (Demo.crawl_index 2)))).
Defined.

(** The crawl from the page with the links: one file, one fingerprint,
    three URLs. *)
Lemma files_fingerprints_urls_witness :
  let s := (run Demo.ext (Demo.crawl_index 2) []).2 in
  List.length (written s) = 1%nat /\ size (seen_hashes s) = 1%nat /\
  size (seen_urls s) = 3%nat /\
  (List.length (written s) <= size (seen_hashes s))%nat /\
  (size (seen_hashes s) <= size (seen_urls s))%nat.
Proof.
  split; [vm_compute; reflexivity|]. split; [vm_compute; reflexivity|].
  split; [vm_compute; reflexivity|].
  apply (files_fingerprints_urls Demo.ext (Demo.crawl_index 2) []).
Defined.

(** The page of the small world on the full disk: its fingerprint stays,
    and the mirror met afterwards is taken for a duplicate. *)
Lemma failed_write_keeps_fingerprint_witness :
  exists s',
    process_url Faulty.ext (Faulty.args_of "seeds.txt") Demo.page_a
      (initial []) = (Ok tt, s') /\
    log s' = [ERROR Demo.page_a "OSError: disk full"] /\
    total_bytes s' = 0 /\
    dedup_and_save Faulty.ext (Faulty.args_of "seeds.txt") Demo.mirror None
      ("  " +:+ Demo.article +:+ nl) s'
    = (Ok tt, push_log (DUPLICATE Demo.mirror) s').
Proof.
  pose (s2 := set_world [Demo.page_a; "http://example.com/robots.txt"]
                (mark_url Demo.page_a (initial []))).
  destruct (failed_write_keeps_fingerprint Faulty.ext
              (Faulty.args_of "seeds.txt") Demo.page_a (initial [])
              (set_world ["http://example.com/robots.txt"]
                 (mark_url Demo.page_a (initial [])))
              s2 None Demo.article "example.com-a-555abfee"
              "OSError: disk full" (world s2))
    as (P & T & _ & D).
  - apply not_elem_of_empty.
  - reflexivity.
  - reflexivity.
  - vm_compute. reflexivity.
  - apply not_elem_of_empty.
  - vm_compute. reflexivity.
  - reflexivity.
  - eexists. split; [exact P|]. split; [reflexivity|].
    split; [exact T|]. apply D; [reflexivity|]. vm_compute. reflexivity.
Defined.

(** The article whose summary request times out: the title is made from
    the URL. *)
Lemma wikipedia_title_fallback_witness :
  fetch_wikipedia_plain Faulty.ext Faulty.sea_otter 20 (initial [])
  = (Ok (Some "Sea otter", Some Faulty.sea_otter_text),
     set_world
       ["https://en.wikipedia.org/api/rest_v1/page/summary/Sea_otter";
        "https://en.wikipedia.org/api/rest_v1/page/plain/Sea_otter"]
       (initial [])).
Proof.
  apply (wikipedia_title_fallback Faulty.ext (Faulty.args_of "seeds.txt")
           Faulty.sea_otter
           (mkParseResult "https" "en.wikipedia.org" "/wiki/Sea_otter"
              EmptyString EmptyString EmptyString)
           (mkResponse 200 true (Some "text/plain") Faulty.sea_otter_text
              (Raise "JSONDecodeError"))
           ["https://en.wikipedia.org/api/rest_v1/page/plain/Sea_otter"]
           (initial []));
    reflexivity.
Defined.

(** The crawl from the page with the links, with [--max-follow 2]. *)
Lemma expansion_follows_at_most_max_follow_witness :
  let s' := (expand_seed Demo.ext (Demo.crawl_index 2) Demo.index
               (initial [])).2 in
  elements (seen_urls s') = [Demo.mirror; Demo.page_a] /\
  exists followed,
    (List.length followed <= 2)%nat /\
    (forall u, u ∈ seen_urls s' -> u ∈ (∅ : gset string) \/ u ∈ followed) /\
    (size (seen_urls s') <= size (∅ : gset string) + 2)%nat.
Proof.
  split; [vm_compute; reflexivity|].
  apply (expansion_follows_at_most_max_follow Demo.ext (Demo.crawl_index 2)
           Demo.index (initial [])).
Defined.

(** Without [--crawl], the page with the links is the only URL marked. *)
Lemma no_crawl_visits_only_seeds_witness :
  let s' := (seed_loop Demo.ext Demo.args [Demo.index] (initial [])).2 in
  (forall u, u ∈ seen_urls s' ->
             u ∈ (∅ : gset string) \/ u ∈ [Demo.index]) /\
  (size (seen_urls s') <= size (∅ : gset string) + 1)%nat.
Proof.
  apply (no_crawl_visits_only_seeds Demo.ext Demo.args [Demo.index]
           (initial [])).
  reflexivity.
Defined.

(** The page of the small world: 414 characters, all ASCII, 414 bytes. *)
Lemma save_txt_counts_header_witness :
  exists e,
    written (save_txt Demo.ext "corpus" Demo.page_a None Demo.article
               (initial [])).2 = [e] /\
    fw_url e = Demo.page_a /\ fw_ok e = true /\
    414 = page_bytes e /\
    Z.of_nat (String.length (fw_content e)) <= 414 /\
    22 + Z.of_nat (String.length Demo.page_a)
    + Z.of_nat (String.length (Py.strip Demo.article))
    <= Z.of_nat (String.length (fw_content e)).
Proof.
  apply (save_txt_counts_header Demo.ext "corpus" Demo.page_a None
           Demo.article (initial [])).
  vm_compute. reflexivity.
Defined.

(** The page with eight anchors: three links within the domain, four in
    all. *)
Lemma collect_links_bounds_witness :
  (List.length [Demo.secure_link; Demo.mirror; Demo.page_a] <= 8)%nat /\
  [Demo.secure_link; Demo.mirror; Demo.page_a]
  ⊆ [Demo.secure_link; "http://other.org/y"; Demo.mirror; Demo.page_a].
Proof.
  split.
  - apply (proj1 (collect_links_bounds Demo.ext Demo.index Demo.index_markup)
             true).
    vm_compute. reflexivity.
  - apply (proj2 (collect_links_bounds Demo.ext Demo.index
                    Demo.index_markup));
      vm_compute; reflexivity.
Defined.


(** The file of the crawl from the page with the links. *)
Lemma files_are_placed_witness :
  exists e,
    written (run Demo.ext (Demo.crawl_index 2) []).2 = [e] /\
    fw_url e = Demo.page_a /\ fw_dir e = "corpus" /\
    fw_name e = "example.com-a-555abfee.txt" /\
    safe_name (fw_name e) = true /\
    Py.startswith (fw_content e) ("URL: " +:+ fw_url e +:+ nl) = true.
Proof.
  eexists. split; [vm_compute; reflexivity|].
  split; [reflexivity|].
  match goal with
  | |- context [fw_dir ?e] =>
      destruct (files_are_placed Demo.ext (Demo.crawl_index 2) [] e)
        as (_ & D & _ & S & _ & _ & F)
  end.
  - vm_compute. constructor.
  - split; [exact D|]. split; [reflexivity|]. split; [exact S | exact F].
Defined.

(** The page of the small world comes through the general path with its
    348 characters. *)
Lemma acquire_accepts_witness :
  Py.truthy (Py.strip Demo.article) = true /\
  300 <= Z.of_nat (String.length (Py.strip Demo.article)).
Proof.
  destruct (acquire_accepts Demo.ext Demo.args Demo.page_a None Demo.article
              (initial []) (set_world [Demo.page_a] (initial [])))
    as [T [F | (t0 & x0 & s1 & r & w & _ & _ & _ & _ & _ & _ & _ & L)]].
  - vm_compute. reflexivity.
  - vm_compute in F. discriminate.
  - split; [exact T | exact L].
Defined.
